(** * pyepics autosave: save_restore.py

    A shallow embedding of [epics/autosave/save_restore.py] (restore_pvs,
    save_pvs and _parse_request_file) together with the properties of the
    request-file expansion and of the save-file format.

    Python byte strings are [string]; the dictionary of macro values is a
    [gmap string string] living in a store of objects, so that aliasing of
    the (mutable) default argument is visible; Channel Access, the JSON
    codec, pyparsing and the file system are collaborators of the module and
    appear as parameters. *)

From Stdlib Require Import ZArith Lia Ascii.
From stdpp Require Import gmap strings list fin_maps pretty.

Local Open Scope Z_scope.
Local Open Scope nat_scope.

(** Appending to a string that starts with a known character simplifies. *)
Global Arguments String.append !_ _ / : simpl nomatch.

(** ** Python's [str] methods used by the module *)

Module Py.

(** [len(s)] *)
Definition len (s : string) : nat := String.length s.

(** [s.startswith(p)] *)
Definition startswith (p s : string) : bool := String.prefix p s.

(** [s.endswith(p)] *)
Definition endswith (p s : string) : bool :=
  String.prefix (String.rev p) (String.rev s).

(** [c in s] for a character, and [sub in s]. *)
Fixpoint has_char (c : ascii) (s : string) : bool :=
  match s with
  | "" => false
  | String x s' => Ascii.eqb x c || has_char c s'
  end.

Fixpoint contains (sub s : string) : bool :=
  String.prefix sub s
  || match s with
     | "" => false
     | String _ s' => contains sub s'
     end.

(** No character of [s] is whitespace. *)
Fixpoint no_space (s : string) : bool :=
  match s with
  | "" => true
  | String c s' => negb (Ascii.is_space c) && no_space s'
  end.

(** [s[:-1]]: everything but the last character (the empty string stays
    empty). *)
Fixpoint drop_last (s : string) : string :=
  match s with
  | "" => ""
  | String c "" => ""
  | String c s' => String c (drop_last s')
  end.

(** [s[1:]] *)
Definition drop_first (s : string) : string :=
  match s with
  | "" => ""
  | String _ s' => s'
  end.

(** [s[1:-1]] *)
Definition slice_1_m1 (s : string) : string := drop_last (drop_first s).

(** [s.lstrip()], [s.rstrip()], [s.strip()]: the whitespace of a Python 2
    byte string is space, \t, \n, \v, \f and \r. *)
Fixpoint lstrip (s : string) : string :=
  match s with
  | "" => ""
  | String c s' => if Ascii.is_space c then lstrip s' else s
  end.

Fixpoint rstrip (s : string) : string :=
  match s with
  | "" => ""
  | String c s' =>
      match rstrip s' with
      | "" => if Ascii.is_space c then "" else String c ""
      | r => String c r
      end
  end.

Definition strip (s : string) : string := rstrip (lstrip s).

(** [s.rstrip(c)] for a single character [c]. *)
Fixpoint lstrip_char (c : ascii) (s : string) : string :=
  match s with
  | "" => ""
  | String x s' => if Ascii.eqb x c then lstrip_char c s' else s
  end.

Definition rstrip_char (c : ascii) (s : string) : string :=
  String.rev (lstrip_char c (String.rev s)).

(** [s.split(sep, 1)] for a single-character separator: at most one cut, at
    the first separator. *)
Fixpoint split1 (sep : ascii) (s : string) : list string :=
  match s with
  | "" => [""]
  | String c s' =>
      if Ascii.eqb c sep then [""; s']
      else match split1 sep s' with
           | w :: ws => String c w :: ws
           | [] => [String c ""]
           end
  end.

(** [s.split(sep)] for a single-character separator. *)
Fixpoint split (sep : ascii) (s : string) : list string :=
  match s with
  | "" => [""]
  | String c s' =>
      if Ascii.eqb c sep then "" :: split sep s'
      else match split sep s' with
           | w :: ws => String c w :: ws
           | [] => [String c ""]
           end
  end.

(** [sep.join(ws)] *)
Definition join (sep : string) (ws : list string) : string :=
  String.concat sep ws.

(** [''.join(ws)], and what [f.writelines(ws)] writes. *)
Definition concat (ws : list string) : string := foldr String.append "" ws.

(** [s.replace(old, new)].  CPython scans from the left; at a position where
    [old] matches it emits [new] and resumes after the match, otherwise it
    copies one character.  [skip] counts the characters of the current match
    that are still to be passed over.  With an empty [old], [new] is put
    before every character and at the end. *)
Fixpoint replace_go (old new : string) (skip : nat) (s : string) : string :=
  match s with
  | "" => ""
  | String c s' =>
      match skip with
      | S k => replace_go old new k s'
      | O =>
          if String.prefix old s
          then new +:+ replace_go old new (String.length old - 1) s'
          else String c (replace_go old new 0 s')
      end
  end.

Fixpoint interleave (new s : string) : string :=
  match s with
  | "" => new
  | String c s' => new +:+ String c (interleave new s')
  end.

Definition replace (old new s : string) : string :=
  match old with
  | "" => interleave new s
  | _ => replace_go old new 0 s
  end.

(** [f.readlines()]: the lines of a text, each with its newline; a last line
    without newline is kept as it is. *)
Fixpoint readlines_go (cur : string) (s : string) : list string :=
  match s with
  | "" => match cur with "" => [] | _ => [String.rev cur] end
  | String c s' =>
      if Ascii.eqb c "010"
      then String.rev (String c cur) :: readlines_go "" s'
      else readlines_go (String c cur) s'
  end.

Definition readlines (s : string) : list string := readlines_go "" s.

(** [fmt % args] for a format whose only conversions are [%s]: every [%s]
    takes the next argument; too few or too many arguments raise TypeError
    ([None]). *)
Fixpoint format (fmt : string) (args : list string) : option string :=
  match fmt with
  | "" => match args with [] => Some "" | _ => None end
  | String "%" (String "s" rest) =>
      match args with
      | a :: args' => (fun r => a +:+ r) <$> format rest args'
      | [] => None
      end
  | String c rest => String c <$> format rest args
  end.

End Py.

(** ** [os.path] (posixpath) *)

Module Posixpath.

(** [p[:p.rfind('/') + 1]]: [p] up to and including its last slash. *)
Fixpoint head_of (p : string) : string :=
  match p with
  | "" => ""
  | String c p' =>
      match head_of p' with
      | "" => if Ascii.eqb c "/" then "/" else ""
      | h => String c h
      end
  end.

(** [head == '/' * len(head)] *)
Fixpoint all_slashes (s : string) : bool :=
  match s with
  | "" => true
  | String c s' => Ascii.eqb c "/" && all_slashes s'
  end.

(** [os.path.dirname] *)
Definition dirname (p : string) : string :=
  let head := head_of p in
  if negb (String.eqb head "") && negb (all_slashes head)
  then Py.rstrip_char "/" head
  else head.

(** [os.path.join(a, b)] *)
Definition join (a b : string) : string :=
  if Py.startswith "/" b then b
  else if String.eqb a "" || Py.endswith "/" a then a +:+ b
  else a +:+ "/" +:+ b.

(** The loop of [normpath] over the components; [new_comps] is kept in
    reverse, its head is [new_comps[-1]]. *)
Fixpoint norm_comps (initial_slashes : nat) (comps new_comps : list string)
  : list string :=
  match comps with
  | [] => rev new_comps
  | comp :: comps' =>
      if String.eqb comp "" || String.eqb comp "." then
        norm_comps initial_slashes comps' new_comps
      else if negb (String.eqb comp "..")
              || (Nat.eqb initial_slashes 0 && bool_decide (new_comps = []))
              || match new_comps with
                 | last :: _ => String.eqb last ".."
                 | [] => false
                 end
      then norm_comps initial_slashes comps' (comp :: new_comps)
      else norm_comps initial_slashes comps' (tail new_comps)
  end.

(** [os.path.normpath] *)
Definition normpath (path : string) : string :=
  if String.eqb path "" then "."
  else
    let initial_slashes :=
      if Py.startswith "/" path
      then if Py.startswith "//" path && negb (Py.startswith "///" path)
           then 2 else 1
      else 0 in
    let comps := norm_comps initial_slashes (Py.split "/" path) [] in
    let path' := Py.join "/" comps in
    let path' :=
      match initial_slashes with
      | 0 => path'
      | 1 => "/" +:+ path'
      | _ => "//" +:+ path'
      end in
    if String.eqb path' "" then "." else path'.

End Posixpath.

(** ** Exceptions, events and results *)

Inductive exn :=
| IOError
| ParseException
| ValueError
| TypeError
| UnboundLocalError
| RuntimeError
| IndexError
| ChannelAccessError.

Inductive result (A : Type) :=
| Return (a : A)
| Raise (e : exn).

Arguments Return {A} a.
Arguments Raise {A} e.

(** The newline character, and the text ["\n"]. *)
Definition nl : string := String "010" "".

(** ** The request file: [_parse_request_file] *)

(** One group of [req_file.parseFile(request_file).asList()].  The grammar
    [req_line = line(file_include | comment.suppress() | pv_name)] gives a
    group one of three shapes: [[]] for a comment, [[name]] for a PV name and
    [['file', subfile, [m1, v1], [m2, v2], ...]] for an include.  No other
    shape comes out of the parser, so the last branch of the loop (line
    142) is never taken. *)
Inductive group :=
| Suppressed
| PVName (name : string)
| FileInclude (subfile : string) (macros : list (string * string)).

(** [len(x)] of a group *)
Definition group_len (x : group) : nat :=
  match x with
  | Suppressed => 0
  | PVName _ => 1
  | FileInclude _ macros => 2 + length macros
  end.

(** Dictionaries are objects: the store holds them, a variable holds the
    index of one.  The default value of the parameter [macro_values] is one
    object, made when the function is defined and shared by all the calls
    that leave the parameter out. *)
Definition loc := nat.
Definition store := list (gmap string string).

Definition default_macro_values : loc := 0.
Definition initial_store : store := [∅].

(** A computation over the store that returns or raises. *)
Definition M (A : Type) : Type := store → store * result A.

Definition ret {A} (a : A) : M A := fun h => (h, Return a).
Definition raise {A} (e : exn) : M A := fun h => (h, Raise e).
Definition bind {A B} (m : M A) (k : A → M B) : M B :=
  fun h => match m h with
           | (h', Return a) => k a h'
           | (h', Raise e) => (h', Raise e)
           end.

Notation "'do' x <- m ; k" := (bind m (fun x => k))
  (at level 10, x name, m at level 100, k at level 200).

(** [d.copy()]: a new object with the bindings of [d]. *)
Definition dict_copy (d : loc) : M loc :=
  fun h => (h ++ [h !!! d], Return (length h)).

(** [dict(pairs)]: a later pair overrides an earlier one with the same key. *)
Definition dict_of_pairs (pairs : list (string * string))
  : gmap string string :=
  fold_left (fun d kv => <[kv.1 := kv.2]> d) pairs ∅.

(** [d.update(other)]: in place; the bindings of [other] override. *)
Definition dict_update (d : loc) (other : gmap string string) : M unit :=
  fun h => (<[d := other ∪ (h !!! d)]> h, Return ()).

(** The placeholder ["$(%s)" % m]. *)
Definition placeholder (m : string) : string := "$(" +:+ m +:+ ")".

(** The loop of lines 132-133 over the items of the dictionary, in the order
    in which they are given. *)
Definition expand_macros (kvs : list (string * string)) (pvname : string)
  : string :=
  fold_left (fun pvname mv => Py.replace (placeholder mv.1) mv.2 pvname)
            kvs pvname.

(** A PV name as the specification reads it: literal text and placeholders
    [$(NAME)].  The text of a piece has no [$] in it, the name of a
    placeholder neither [$] nor [)]. *)
Inductive piece :=
| Lit (text : string)
| Ref (name : string).

Definition piece_ok (p : piece) : bool :=
  match p with
  | Lit text => negb (Py.has_char "$" text)
  | Ref name => negb (Py.has_char "$" name) && negb (Py.has_char ")" name)
  end.

Definition render_piece (p : piece) : string :=
  match p with
  | Lit text => text
  | Ref name => placeholder name
  end.

Definition render (ps : list piece) : string :=
  Py.concat (render_piece <$> ps).

(** The expansion as the specification words it: a placeholder whose name
    is bound becomes the bound value, any other piece stays. *)
Definition substitute (scope : gmap string string) (p : piece) : string :=
  match p with
  | Lit text => text
  | Ref name =>
      match scope !! name with
      | Some v => v
      | None => placeholder name
      end
  end.

Definition expanded (scope : gmap string string) (ps : list piece) : string :=
  Py.concat (substitute scope <$> ps).

(** One round of the loop of lines 132-133 as seen on the pieces: the
    placeholders of the name [m] become the text [v]. *)
Definition bind_piece (m v : string) (p : piece) : piece :=
  match p with
  | Lit _ => p
  | Ref n => if decide (n = m) then Lit v else p
  end.

(** A macro whose name has no [)] and whose value has no [$]. *)
Definition macro_ok (mv : string * string) : bool :=
  negb (Py.has_char ")" mv.1) && negb (Py.has_char "$" mv.2).

(** The path handed to the recursive call (line 137). *)
Definition include_path (request_file subfile : string) : string :=
  Posixpath.normpath
    (Posixpath.join (Posixpath.dirname request_file) subfile).

Section RequestFile.

(** [req_file.parseFile]: opens and parses the file at a path. *)
Variable parseFile : string → result (list group).

(** [d.items()]: the bindings of a dictionary in some order. *)
Variable items : gmap string string → list (string * string).

Definition dict_items (d : loc) : M (list (string * string)) :=
  fun h => (h, Return (items (h !!! d))).

(** The loop of lines 129-142 over [ast], with [result] the list built so
    far; [recurse] is the call of line 140.  An empty group, had line 126
    not filtered it out, would fail both tests on its length and then
    raise at [n[0]]. *)
Fixpoint walk (recurse : string → loc → M (list string))
    (request_file : string) (macro_values : loc)
    (ast : list group) (result : list string) : M (list string) :=
  match ast with
  | [] => ret result
  | n :: ast =>
      match n with
      | Suppressed => raise IndexError
      | PVName pvname =>
          do kvs <- dict_items macro_values;
          walk recurse request_file macro_values ast
               (result ++ [expand_macros kvs pvname])
      | FileInclude subfile macros =>
          let subfile := include_path request_file subfile in
          do sub_macro_vals <- dict_copy macro_values;
          do u <- dict_update sub_macro_vals (dict_of_pairs macros);
          do names <- recurse subfile sub_macro_vals;
          walk recurse request_file macro_values ast (result ++ names)
      end
  end.

(** [fuel] bounds the depth of the recursion, as the interpreter's recursion
    limit does (RuntimeError). *)
Fixpoint _parse_request_file (fuel : nat) (request_file : string)
    (macro_values : loc) : M (list string) :=
  match fuel with
  | O => raise RuntimeError
  | S fuel =>
      match parseFile request_file with
      | Raise e => raise e
      | Return groups =>
          let ast := filter (λ x, 0 < group_len x) groups in
          walk (_parse_request_file fuel) request_file macro_values ast []
      end
  end.

End RequestFile.

(** The PV names of the groups of a file, in the order of the file. *)
Definition pv_names (groups : list group) : list string :=
  omap (λ g, match g with PVName name => Some name | _ => None end) groups.

(** Whether a group is an include. *)
Definition is_include (g : group) : bool :=
  match g with FileInclude _ _ => true | _ => false end.

(** The expansion of a request file as the specification words it: the
    names of the file in the order of its lines, the names of an included
    file spliced in, depth first, at the place of the include line; the
    included file is read with the macros of the line on top of the
    inherited ones. *)
Inductive spliced (parseFile : string → result (list group))
    (items : gmap string string → list (string * string))
  : gmap string string → string → list group → list string → Prop :=
| spliced_end scope request_file :
    spliced parseFile items scope request_file [] []
| spliced_comment scope request_file ast names :
    spliced parseFile items scope request_file ast names →
    spliced parseFile items scope request_file (Suppressed :: ast) names
| spliced_name scope request_file pvname ast names :
    spliced parseFile items scope request_file ast names →
    spliced parseFile items scope request_file (PVName pvname :: ast)
      (expand_macros (items scope) pvname :: names)
| spliced_include scope request_file subfile macros sub_ast sub_names
    ast names :
    parseFile (include_path request_file subfile) = Return sub_ast →
    spliced parseFile items (dict_of_pairs macros ∪ scope)
      (include_path request_file subfile) sub_ast sub_names →
    spliced parseFile items scope request_file ast names →
    spliced parseFile items scope request_file
      (FileInclude subfile macros :: ast) (sub_names ++ names).

(** ** Channel Access and the save file *)

(** What [put] is given: the text of the line, or what [json.loads] made of
    it. *)
Inductive put_arg (J : Type) :=
| Text (s : string)
| Json (j : J).

Arguments Text {J} s.
Arguments Json {J} j.

(** What the module does to the outside: a line on standard output, a
    [put] on a channel, a file written. *)
Inductive event (J : Type) :=
| Print (line : string)
| Put (pvname : string) (v : put_arg J)
| Write (path content : string).

Arguments Print {J} line.
Arguments Put {J} pvname v.
Arguments Write {J} path content.

(** The [PV] object of a name, as the module uses it.  [raises] is the
    exception (type and value, as text) that [PV(pvname)] or [connect()]
    raises, if any, and [put_raises] the one that [put] raises. *)
Record channel (J : Type) := {
  raises : option (string * string);
  connected : bool;
  write_access : bool;
  put_raises : option (string * string);
  count : Z;
  type : string;
  get_str : string;        (* str(thispv.get()) *)
  get_as_string : string;  (* thispv.get(as_string=True) *)
  get_tolist : J           (* thispv.get().tolist() *)
}.

Arguments raises {J} c.
Arguments connected {J} c.
Arguments write_access {J} c.
Arguments put_raises {J} c.
Arguments count {J} c.
Arguments type {J} c.
Arguments get_str {J} c.
Arguments get_as_string {J} c.
Arguments get_tolist {J} c.

(** Events emitted before the rest of a computation. *)
Definition emit {J A} (evs : list (event J)) (r : list (event J) * A)
  : list (event J) * A :=
  (evs ++ r.1, r.2).

Section Autosave.

Context {J : Type}.

(** [json.loads]; [None] is ValueError. *)
Variable json_loads : string → option J.
(** [json.dumps] *)
Variable json_dumps : J → string.
(** [str] of a decoded object, as [%s] formats it. *)
Variable str_of : J → string.
(** [PV(pvname)] *)
Variable PV : string → channel J.
(** [open(path, 'r')] and the text read; [None] is IOError. *)
Variable read_file : string → option string.
(** [datetime.datetime.now().isoformat()] *)
Variable now : string.
(** The parser and the dictionary order of [_parse_request_file]. *)
Variable parseFile : string → result (list group).
Variable items : gmap string string → list (string * string).

Definition value_str (v : put_arg J) : string :=
  match v with
  | Text s => s
  | Json j => str_of j
  end.

(** Line 52: [pvname, value = [w.strip() for w in line[:-1].split(' ', 1)]];
    unpacking a list of one word raises ValueError. *)
Definition split_line (line : string) : result (string * string) :=
  match Py.strip <$> Py.split1 " " (Py.drop_last line) with
  | [pvname; value] => Return (pvname, value)
  | _ => Raise ValueError
  end.

(** Lines 53-59. *)
Definition decode_value (value : string) : result (put_arg J) :=
  let value :=
    if Py.startswith "<JSON>:" value
    then Py.replace "<JSON>:" "@array@" value
    else value in
  if Py.startswith "@array@" value then
    let value := Py.strip (Py.replace "@array@" "" value) in
    let value :=
      if Py.startswith "{" value && Py.endswith "}" value
      then Py.slice_1_m1 value
      else value in
    match json_loads value with
    | Some j => Return (Json j)
    | None => Raise ValueError
    end
  else Return (Text value).

(** Lines 63-70, the body of [try]: the events, and the exception that
    reaches [except], if any. *)
Definition try_put (pvname : string) (v : put_arg J)
  : list (event J) * option (string * string) :=
  let thispv := PV pvname in
  match raises thispv with
  | Some exc => ([], Some exc)
  | None =>
      if negb (connected thispv) then
        match Py.format "Cannot connect to %s" [pvname] with
        | Some line => ([Print line], None)
        | None => ([], Some ("TypeError", ""))
        end
      else if negb (write_access thispv) then
        match Py.format "No write access to %s" [pvname] with
        | Some line => ([Print line], None)
        | None => ([], Some ("TypeError", ""))
        end
      else
        match put_raises thispv with
        | Some exc => ([], Some exc)
        | None => ([Put pvname v], None)
        end
  end.

(** Lines 52-59: the name and the value of a data line. *)
Definition read_line (line : string) : result (string * put_arg J) :=
  match split_line line with
  | Raise e => Raise e
  | Return (pvname, value) =>
      match decode_value value with
      | Raise e => Raise e
      | Return value => Return (pvname, value)
      end
  end.

(** Lines 60-76: what is done with the name and the value of a line.  It
    returns [true] when the body of [try] ended without exception and
    [false] when the handler of [except] ran to its end, where [success]
    becomes False; it raises when the handler itself raised. *)
Definition restore_one (debug : bool) (pvname : string) (value : put_arg J)
  : list (event J) * result bool :=
  let setting :=
    if debug
    then (fun line => [Print line])
           <$> Py.format "Setting %s to %s..." [pvname; value_str value]
    else Some [] in
  match setting with
  | None => ([], Raise TypeError)
  | Some printed =>
      emit printed
        (let (evs, caught) := try_put pvname value in
         emit evs
           match caught with
           | None => ([], Return true)
           | Some (exctype, excvalue) =>
               match Py.format "Error restoring %s to %s : %s"
                       [pvname; value_str value; exctype; excvalue]
               with
               | None => ([], Raise TypeError)
               | Some line => ([Print line], Return false)
               end
           end)
  end.

(** Lines 47-76: the loop over the lines, [success] being the flag. *)
Fixpoint restore_lines (debug : bool) (lines : list string) (success : bool)
  : list (event J) * result bool :=
  match lines with
  | [] => ([], Return success)
  | line :: lines =>
      if Py.startswith "<END" line then ([], Return success)
      else if Py.startswith "#" line then restore_lines debug lines success
      else
        match read_line line with
        | Raise e => ([], Raise e)
        | Return (pvname, value) =>
            match restore_one debug pvname value with
            | (evs, Raise e) => (evs, Raise e)
            | (evs, Return kept) =>
                emit evs
                  (restore_lines debug lines (if kept then success else false))
            end
        end
  end.

(** [restore_pvs(filepath, debug)] *)
Definition restore_pvs (filepath : string) (debug : bool)
  : list (event J) * result bool :=
  match read_file filepath with
  | None => ([], Raise IOError)
  | Some text => restore_lines debug (Py.readlines text) true
  end.

(** Lines 96-101.  No branch is taken when [count] is below one: [value]
    keeps what the previous round left in it. *)
Definition encode_value (thispv : channel J) (value : option string)
  : option string :=
  if (count thispv =? 1)%Z then Some (get_str thispv)
  else if (1 <? count thispv)%Z && String.eqb (type thispv) "char"
  then Some (get_as_string thispv)
  else if (1 <? count thispv)%Z && negb (String.eqb (type thispv) "char")
  then Some ("@array@ " +:+ json_dumps (get_tolist thispv))
  else value.

(** What is written for a PV of one element or more. *)
Definition text_of (thispv : channel J) : string :=
  default "" (encode_value thispv None).

(** What the loop of lines 90-102 is expected to print and to collect: a
    diagnostic for every name that does not connect, a pair for every name
    that does. *)
Definition diagnostics (pvnames : list string) : list (event J) :=
  (λ pvn, Print ("Cannot connect to " +:+ pvn))
    <$> filter (λ pvn, connected (PV pvn) = false) pvnames.

Definition collected (pvnames : list string) : list (string * string) :=
  (λ pvn, (pvn, text_of (PV pvn)))
    <$> filter (λ pvn, connected (PV pvn) = true) pvnames.

(** Lines 90-102: the loop over the PVs; [value] is the local variable,
    unbound at first. *)
Fixpoint save_loop (pvnames : list string) (value : option string)
    (pv_vals : list (string * string))
  : list (event J) * result (list (string * string)) :=
  match pvnames with
  | [] => ([], Return pv_vals)
  | pvname :: pvnames =>
      let thispv := PV pvname in
      if negb (connected thispv) then
        match Py.format "Cannot connect to %s" [pvname] with
        | Some line => emit [Print line] (save_loop pvnames value pv_vals)
        | None => ([], Raise TypeError)
        end
      else
        match encode_value thispv value with
        | None => ([], Raise UnboundLocalError)
        | Some v => save_loop pvnames (Some v) (pv_vals ++ [(pvname, v)])
        end
  end.

(** The line ["%s %s\n" % v] of a pair. *)
Definition save_line (v : string * string) : string :=
  v.1 +:+ " " +:+ v.2 +:+ nl.

(** Lines 109-113: what is written to the save file. *)
Definition save_text (pv_vals : list (string * string)) : string :=
  ("# File saved by pyepics autosave.save_pvs() on " +:+ now +:+ nl)
  +:+ ("# Edit with extreme care." +:+ nl)
  +:+ Py.concat (save_line <$> pv_vals)
  +:+ ("<END>" +:+ nl).

(** Lines 104-106. *)
Definition debug_lines (pv_vals : list (string * string)) : list (event J) :=
  (fun v => Print ("PV " +:+ v.1 +:+ " = " +:+ v.2)) <$> pv_vals.

(** [save_pvs(request_file, save_pvs, debug)]: it calls
    [_parse_request_file] with the default [macro_values]; a [PV] or a
    [connect] that raises (lines 88-89) ends it, nothing catches there. *)
Definition save_pvs (fuel : nat) (request_file save_file : string)
    (debug : bool) (h : store) : store * (list (event J) * result unit) :=
  match _parse_request_file parseFile items fuel request_file
          default_macro_values h with
  | (h', Raise e) => (h', ([], Raise e))
  | (h', Return pvnames) =>
      (h',
       match list_find (fun pvn => is_Some (raises (PV pvn))) pvnames with
       | Some _ => ([], Raise ChannelAccessError)
       | None =>
           match save_loop pvnames None [] with
           | (evs, Raise e) => (evs, Raise e)
           | (evs, Return pv_vals) =>
               (evs ++ (if debug then debug_lines pv_vals else [])
                    ++ [Write save_file (save_text pv_vals)],
                Return ())
           end
       end)
  end.

End Autosave.

(** ** A fragment of [json]

    Integers, strings without escapes and flat arrays of them, with
    [json.dumps] (default separators), [json.loads] and [str] on them.  The
    module itself takes the codec as a parameter; the fragment gives it a
    value in the examples and for the arrays of integers.  Outside the
    fragment [loads] answers [None]. *)

Module Json.

Inductive atom :=
| Num (z : Z)
| Str (s : string).

Inductive t :=
| Atom (a : atom)
| Arr (l : list atom).

Definition quote : string := String "034" "".

Definition dumps_atom (a : atom) : string :=
  match a with
  | Num z => pretty z
  | Str s => quote +:+ s +:+ quote
  end.

(** [json.dumps] with the default separators. *)
Definition dumps (j : t) : string :=
  match j with
  | Atom a => dumps_atom a
  | Arr l => "[" +:+ String.concat ", " (dumps_atom <$> l) +:+ "]"
  end.

(** [repr] of an element of a list, [str] of a decoded object. *)
Definition repr_atom (a : atom) : string :=
  match a with
  | Num z => pretty z
  | Str s => "u'" +:+ s +:+ "'"
  end.

Definition str_of (j : t) : string :=
  match j with
  | Atom (Num z) => pretty z
  | Atom (Str s) => s
  | Arr l => "[" +:+ String.concat ", " (repr_atom <$> l) +:+ "]"
  end.

Inductive token :=
| LBracket
| RBracket
| Comma
| Lit (a : atom)
| Bad.

Inductive lex_state :=
| Idle
| InNum (lexeme : string)   (* reversed *)
| InStr (chars : string).   (* reversed *)

Definition is_digit (c : ascii) : bool :=
  match Ascii.is_nat c with Some _ => true | None => false end.

Fixpoint all_digits (s : string) : bool :=
  match s with
  | "" => true
  | String c s' => is_digit c && all_digits s'
  end.

Fixpoint digits_value_go (ds : string) (acc : Z) : option Z :=
  match ds with
  | "" => Some acc
  | String c ds' =>
      match Ascii.is_nat c with
      | Some d => digits_value_go ds' (10 * acc + Z.of_nat d)%Z
      | None => None
      end
  end.

Definition digits_value (ds : string) : option Z := digits_value_go ds 0%Z.

(** A JSON integer: an optional minus sign, then a single zero or digits
    that do not start with zero. *)
Definition number (lexeme : string) : token :=
  let (neg, ds) :=
    match lexeme with
    | String "-" ds => (true, ds)
    | _ => (false, lexeme)
    end in
  match ds with
  | "" => Bad
  | String "0" (String _ _) => Bad
  | _ =>
      match digits_value ds with
      | Some z => Lit (Num (if neg then - z else z)%Z)
      | None => Bad
      end
  end.

Definition idle_step (c : ascii) : list token * lex_state :=
  if Ascii.eqb c " " || Ascii.eqb c "009" || Ascii.eqb c "010"
     || Ascii.eqb c "013" then ([], Idle)
  else if Ascii.eqb c "[" then ([LBracket], Idle)
  else if Ascii.eqb c "]" then ([RBracket], Idle)
  else if Ascii.eqb c "," then ([Comma], Idle)
  else if Ascii.eqb c "034" then ([], InStr "")
  else if Ascii.eqb c "-" || is_digit c then ([], InNum (String c ""))
  else ([Bad], Idle).

Fixpoint lex (st : lex_state) (s : string) : list token :=
  match s with
  | "" =>
      match st with
      | Idle => []
      | InNum lexeme => [number (String.rev lexeme)]
      | InStr _ => [Bad]
      end
  | String c s' =>
      match st with
      | InStr chars =>
          if Ascii.eqb c "034" then Lit (Str (String.rev chars)) :: lex Idle s'
          else if Ascii.eqb c "\" then [Bad]
          else lex (InStr (String c chars)) s'
      | InNum lexeme =>
          if is_digit c then lex (InNum (String c lexeme)) s'
          else
            let (toks, st') := idle_step c in
            number (String.rev lexeme) :: toks ++ lex st' s'
      | Idle =>
          let (toks, st') := idle_step c in
          toks ++ lex st' s'
      end
  end.

Fixpoint items (toks : list token) : option (list atom) :=
  match toks with
  | [Lit a; RBracket] => Some [a]
  | Lit a :: Comma :: toks' => (fun l => a :: l) <$> items toks'
  | _ => None
  end.

(** The tokens of the text of an array of integers. *)
Fixpoint array_tokens (zs : list Z) : list token :=
  match zs with
  | [] => []
  | [z] => [Lit (Num z); RBracket]
  | z :: zs' => Lit (Num z) :: Comma :: array_tokens zs'
  end.

(** [json.loads] *)
Definition loads (s : string) : option t :=
  match lex Idle s with
  | [Lit a] => Some (Atom a)
  | [LBracket; RBracket] => Some (Arr [])
  | LBracket :: toks => Arr <$> items toks
  | _ => None
  end.

End Json.


(** ** Example channels *)

Module Example.

(** A channel that connects and can be written; it holds one number. *)
Definition writable : channel Json.t :=
  {| raises := None; connected := true; write_access := true;
     put_raises := None; count := 1; type := "double"; get_str := "1.5";
     get_as_string := "1.5"; get_tolist := Json.Arr [] |}.

(** A channel that does not connect. *)
Definition unreachable : channel Json.t :=
  {| raises := None; connected := false; write_access := false;
     put_raises := None; count := 0; type := ""; get_str := "None";
     get_as_string := "None"; get_tolist := Json.Arr [] |}.

(** A connected array of three integers. *)
Definition waveform : channel Json.t :=
  {| raises := None; connected := true; write_access := true;
     put_raises := None; count := 3; type := "long"; get_str := "[1 2 3]";
     get_as_string := "[1 2 3]";
     get_tolist := Json.Arr [Json.Num 1; Json.Num 2; Json.Num 3] |}.

(** Nothing is reachable. *)
Definition nothing (pvname : string) : channel Json.t := unreachable.

(** Everything is reachable and writable. *)
Definition everything (pvname : string) : channel Json.t := writable.

(** [PV1] and [PV2] are writable, [WAVE] is an array, the rest is
    unreachable. *)
Definition ioc (pvname : string) : channel Json.t :=
  if String.eqb pvname "PV1" || String.eqb pvname "PV2" then writable
  else if String.eqb pvname "WAVE" then waveform
  else unreachable.

(** The request files of the end-to-end scenario, and one without
    includes. *)
Definition requests (path : string) : result (list group) :=
  if String.eqb path "top.req" then
    Return [PVName "PV:ONE"; FileInclude "sub.req" [("A", "10")]]
  else if String.eqb path "sub.req" then
    Return [PVName "PV:TWO_$(A)"]
  else if String.eqb path "plain.req" then
    Return [Suppressed; PVName "PV1"; PVName "WAVE"; Suppressed; PVName "PV3"]
  else if String.eqb path "a/req.req" then
    Return [FileInclude "sub/b.req" []]
  else if String.eqb path "a/sub/b.req" then
    Return [PVName "PV:B"]
  else Raise IOError.

(** A file system with one file. *)
Definition one_file (path text : string) (p : string) : option string :=
  if String.eqb p path then Some text else None.

End Example.

(** ** The tokens of the grammar and further notions *)

Module Grammar.

(** pyparsing's [alphas], [nums] and [alphanums]. *)
Definition alphas : string :=
  "ABCDEFGHIJKLMNOPQRSTUVWXYZabcdefghijklmnopqrstuvwxyz".
Definition nums : string := "0123456789".
Definition alphanums : string := alphas +:+ nums.

(** The characters of [pv_name] (line 162) and of [file_name] (line 151). *)
Definition pv_name_chars : string := alphanums +:+ ":._$()".
Definition file_name_chars : string := alphanums +:+ ":._-+/\".

(** Every character of [s] is one of [chars]. *)
Fixpoint all_in (chars s : string) : bool :=
  match s with
  | "" => true
  | String c s' => Py.has_char c chars && all_in chars s'
  end.

(** A token of [Word(chars)]: one character of [chars] or more. *)
Definition word (chars s : string) : bool :=
  negb (String.eqb s "") && all_in chars s.

(** A token of [pv_name]. *)
Definition pv_name (s : string) : bool := word pv_name_chars s.

(** A group of [macro] (line 169): [Word(alphas)], the suppressed [=], and
    a [pv_name]. *)
Definition macro (kv : string * string) : bool :=
  word alphas kv.1 && pv_name kv.2.

(** A group of [req_line] (lines 172-180). *)
Definition req_group (g : group) : bool :=
  match g with
  | Suppressed => true
  | PVName name => pv_name name
  | FileInclude subfile macros =>
      word file_name_chars subfile && forallb macro macros
  end.

End Grammar.

(** The values that were put, in the order of the puts. *)
Definition puts_of {J} (evs : list (event J)) : list (string * put_arg J) :=
  omap (λ e, match e with Put pvname v => Some (pvname, v) | _ => None end)
       evs.

(** A channel on which [put] is reached and ends well: nothing raises, it
    is connected and it may be written. *)
Definition can_put {J} (c : channel J) : bool :=
  match raises c, put_raises c with
  | None, None => connected c && write_access c
  | _, _ => false
  end.

(** What makes a pair of the save file come back as the value [v]. *)
Definition restorable {J} (json_loads : string → option J)
    (PV : string → channel J) (nv : string * string) (v : put_arg J) : Prop :=
  Py.no_space nv.1 = true
  ∧ Py.startswith "#" nv.1 = false
  ∧ Py.startswith "<END" nv.1 = false
  ∧ Py.has_char "010" nv.2 = false
  ∧ decode_value json_loads (Py.strip nv.2) = Return v
  ∧ can_put (PV nv.1) = true.

(** A dictionary whose values are tokens of [pv_name]. *)
Definition scope_ok (d : gmap string string) : Prop :=
  map_Forall (λ _ v, Grammar.pv_name v = true) d.

(** ** More example channels and files *)

Module Sample.

(** A channel whose [connect] raises. *)
Definition broken : channel Json.t :=
  {| raises := Some ("<class 'epics.ca.ChannelAccessException'>", "timeout");
     connected := false; write_access := false; put_raises := None;
     count := 0; type := ""; get_str := ""; get_as_string := "";
     get_tolist := Json.Arr [] |}.

(** A connected channel without elements. *)
Definition hollow : channel Json.t :=
  {| raises := None; connected := true; write_access := true;
     put_raises := None; count := 0; type := "double"; get_str := "";
     get_as_string := ""; get_tolist := Json.Arr [] |}.

(** [PV1] is writable, [RO] is read only, [BAD] raises, [EMPTY] is connected
    with no element, the rest does not connect. *)
Definition ioc (pvname : string) : channel Json.t :=
  if String.eqb pvname "PV1" then Example.writable
  else if String.eqb pvname "RO" then
    {| raises := None; connected := true; write_access := false;
       put_raises := None; count := 1; type := "double"; get_str := "2.5";
       get_as_string := "2.5"; get_tolist := Json.Arr [] |}
  else if String.eqb pvname "BAD" then broken
  else if String.eqb pvname "EMPTY" then hollow
  else Example.unreachable.

(** Request files: one that includes itself, one that includes a file that
    is not there, one that passes macros down two levels. *)
Definition requests (path : string) : result (list group) :=
  if String.eqb path "loop.req" then
    Return [PVName "PV1"; FileInclude "loop.req" []; PVName "PV2"]
  else if String.eqb path "dangling.req" then
    Return [PVName "PV1"; FileInclude "missing.req" []; PVName "PV2"]
  else if String.eqb path "top.req" then
    Return [Suppressed; PVName "$(P)top";
            FileInclude "mid.req" [("P", "XF:"); ("M", "m1")]]
  else if String.eqb path "mid.req" then
    Return [PVName "$(P)$(M)"; FileInclude "leaf.req" [("M", "m2")]]
  else if String.eqb path "leaf.req" then
    Return [PVName "$(P)$(M).VAL"]
  else Raise IOError.

End Sample.

(** * Properties *)

(** ** Strings *)

Lemma str_app_nil_r (s : string) : s +:+ "" = s.
Proof. induction s as [|c s IH]; simpl; [done|]. by rewrite IH. Qed.

Lemma str_app_assoc (a b c : string) : (a +:+ b) +:+ c = a +:+ b +:+ c.
Proof. induction a as [|x a IH]; simpl; [done|]. by rewrite IH. Qed.

Lemma str_prefix_nil (s : string) : String.prefix "" s = true.
Proof. by destruct s. Qed.

Lemma str_prefix_app (p s : string) : String.prefix p (p +:+ s) = true.
Proof.
  induction p as [|c p IH]; simpl; [apply str_prefix_nil|].
  destruct (ascii_dec c c); [done|congruence].
Qed.

Lemma str_prefix_cons (c x : ascii) (p s : string) :
  String.prefix (String c p) (String x s)
  = bool_decide (c = x) && String.prefix p s.
Proof.
  simpl. destruct (ascii_dec c x) as [->|Hne].
  - by rewrite bool_decide_eq_true_2.
  - by rewrite bool_decide_eq_false_2.
Qed.

Lemma startswith_char (c : ascii) (s : string) :
  Py.startswith (String c "") s = true → ∃ s', s = String c s'.
Proof.
  destruct s as [|x s]; [done|]. unfold Py.startswith.
  rewrite str_prefix_cons. intros [Hc _]%andb_true_iff.
  apply bool_decide_eq_true in Hc as ->. by exists s.
Qed.

Lemma drop_last_snoc (s : string) (c : ascii) :
  Py.drop_last (s +:+ String c "") = s.
Proof.
  induction s as [|x s IH]; simpl; [done|].
  rewrite IH. by destruct s.
Qed.

Lemma has_char_app (c : ascii) (a b : string) :
  Py.has_char c (a +:+ b) = Py.has_char c a || Py.has_char c b.
Proof.
  induction a as [|x a IH]; simpl; [done|].
  by rewrite IH, orb_assoc.
Qed.

Lemma split1_none (sep : ascii) (s : string) :
  Py.has_char sep s = false → Py.split1 sep s = [s].
Proof.
  induction s as [|c s IH]; simpl; [done|].
  intros [Hc Hs]%orb_false_iff. rewrite Hc, (IH Hs). done.
Qed.

Lemma split1_sep (sep : ascii) (a b : string) :
  Py.has_char sep a = false →
  Py.split1 sep (a +:+ String sep b) = [a; b].
Proof.
  induction a as [|c a IH]; simpl.
  - intros _. by rewrite Ascii.eqb_refl.
  - intros [Hc Ha]%orb_false_iff. rewrite Hc, (IH Ha). done.
Qed.

Lemma no_space_has_char (s : string) :
  Py.no_space s = true → Py.has_char " " s = false.
Proof.
  induction s as [|c s IH]; simpl; [done|].
  intros [Hc Hs]%andb_true_iff. rewrite (IH Hs), orb_false_r.
  destruct (Ascii.eqb_spec c " ") as [->|]; [done|done].
Qed.

Lemma lstrip_no_space (s : string) : Py.no_space s = true → Py.lstrip s = s.
Proof.
  destruct s as [|c s]; simpl; [done|].
  intros [Hc _]%andb_true_iff. by destruct (Ascii.is_space c).
Qed.

Lemma rstrip_no_space (s : string) : Py.no_space s = true → Py.rstrip s = s.
Proof.
  induction s as [|c s IH]; simpl; [done|].
  intros [Hc Hs]%andb_true_iff. rewrite (IH Hs).
  destruct s; [|done]. by destruct (Ascii.is_space c).
Qed.

Lemma strip_no_space (s : string) : Py.no_space s = true → Py.strip s = s.
Proof.
  intros H. unfold Py.strip. rewrite (lstrip_no_space _ H).
  by apply rstrip_no_space.
Qed.

(** The format of the handler of [except] has three conversions and is
    given four arguments. *)
Lemma format_error_restoring (a b c d : string) :
  Py.format "Error restoring %s to %s : %s" [a; b; c; d] = None.
Proof. reflexivity. Qed.

Lemma format_one (pre : string) (a : string) :
  Py.has_char "%" pre = false →
  Py.format (pre +:+ "%s") [a] = Some (pre +:+ a).
Proof.
  induction pre as [|c pre IH]; simpl.
  - intros _. by rewrite str_app_nil_r.
  - intros [Hc Hp]%orb_false_iff.
    destruct (Ascii.eqb_spec c "%") as [->|Hne]; [done|].
    rewrite (IH Hp). simpl.
    destruct c as [[] [] [] [] [] [] [] []]; try done.
Qed.

Lemma str_prefix_sep (p a b : string) (c : ascii) :
  Py.has_char c p = false →
  String.prefix p (a +:+ String c b) = String.prefix p a.
Proof.
  revert a. induction p as [|x p IH]; intros a Hp.
  - by rewrite !str_prefix_nil.
  - simpl in Hp. apply orb_false_iff in Hp as [Hx Hp].
    destruct a as [|y a].
    + simpl. destruct (ascii_dec x c) as [->|]; [|done].
      by rewrite Ascii.eqb_refl in Hx.
    + simpl. destruct (ascii_dec x y); [|done]. by apply IH.
Qed.

Lemma rev_app_nonempty (a b : string) : b ≠ "" → String.rev_app a b ≠ "".
Proof.
  revert b. induction a as [|c a IH]; intros b Hb; simpl; [done|].
  by apply IH.
Qed.

Lemma readlines_go_no_newline (cur s : string) :
  Py.has_char "010" s = false →
  Py.readlines_go cur s
  = match String.rev_app cur s with "" => [] | t => [t] end.
Proof.
  revert cur. induction s as [|c s IH]; intros cur Hs; simpl.
  - destruct cur as [|x cur]; [done|].
    unfold String.rev. simpl.
    pose proof (rev_app_nonempty cur (String x "")) as Hne.
    destruct (String.rev_app cur (String x "")); [by destruct Hne|done].
  - simpl in Hs. apply orb_false_iff in Hs as [Hc Hs].
    rewrite Hc. by rewrite IH.
Qed.

Lemma readlines_one_line (s : string) :
  s ≠ "" → Py.has_char "010" s = false → Py.readlines s = [s].
Proof.
  intros Hne Hs. unfold Py.readlines.
  rewrite readlines_go_no_newline by done. simpl. by destruct s.
Qed.

Lemma readlines_go_line (cur body rest : string) :
  Py.has_char "010" body = false →
  Py.readlines_go cur (body +:+ nl +:+ rest)
  = String.rev_app cur (body +:+ nl) :: Py.readlines_go "" rest.
Proof.
  revert cur. induction body as [|c body IH]; intros cur Hb.
  - reflexivity.
  - simpl in Hb. apply orb_false_iff in Hb as [Hc Hb].
    simpl. rewrite Hc. by rewrite IH.
Qed.

Lemma readlines_line (body : string) :
  Py.has_char "010" body = false →
  Py.readlines (body +:+ nl) = [body +:+ nl].
Proof.
  intros Hb. unfold Py.readlines.
  rewrite <- (str_app_nil_r nl) at 1.
  by rewrite readlines_go_line.
Qed.

Lemma replace_go_absent (old new s : string) :
  Py.contains old s = false → Py.replace_go old new 0 s = s.
Proof.
  induction s as [|c s IH]; [done|].
  intros H. simpl in H. apply orb_false_iff in H as [Hp Hs].
  change (Py.replace_go old new 0 (String c s))
    with (if String.prefix old (String c s)
          then new +:+ Py.replace_go old new (String.length old - 1) s
          else String c (Py.replace_go old new 0 s)).
  simpl. rewrite Hp. by rewrite IH.
Qed.

Lemma replace_absent (old new s : string) :
  Py.contains old s = false → Py.replace old new s = s.
Proof.
  intros H. destruct old as [|c old].
  - destruct s; discriminate.
  - by apply replace_go_absent.
Qed.

Lemma replace_go_skip (old new x s : string) :
  Py.replace_go old new (String.length x) (x +:+ s)
  = Py.replace_go old new 0 s.
Proof.
  induction x as [|c x IH]; [done|]. simpl. apply IH.
Qed.

Lemma replace_at_match (c : ascii) (old new s : string) :
  Py.replace (String c old) new (String c old +:+ s)
  = new +:+ Py.replace (String c old) new s.
Proof.
  unfold Py.replace.
  change (Py.replace_go (String c old) new 0 (String c old +:+ s))
    with (if String.prefix (String c old) (String c old +:+ s)
          then new +:+ Py.replace_go (String c old) new
                         (String.length (String c old) - 1) (old +:+ s)
          else String c (Py.replace_go (String c old) new 0 (old +:+ s))).
  rewrite str_prefix_app. simpl. rewrite Nat.sub_0_r.
  by rewrite replace_go_skip.
Qed.

Lemma rstrip_app (a b : string) :
  Py.rstrip b ≠ "" → Py.rstrip (a +:+ b) = a +:+ Py.rstrip b.
Proof.
  intros Hb. induction a as [|c a IH]; [done|].
  simpl. rewrite IH.
  destruct (a +:+ Py.rstrip b) eqn:E; [|done].
  destruct a; simpl in E; [by destruct Hb|done].
Qed.

(** ** Restoring *)

Section RestoreFacts.

Context {J : Type}.
Variable json_loads : string → option J.
Variable str_of : J → string.
Variable PV : string → channel J.


Lemma emit_nil {A} (r : list (event J) * A) : emit [] r = r.
Proof. by destruct r. Qed.

Lemma emit_emit {A} (e1 e2 : list (event J)) (r : list (event J) * A) :
  emit e1 (emit e2 r) = emit (e1 ++ e2) r.
Proof. destruct r. unfold emit. simpl. by rewrite (assoc_L (++)). Qed.

(** The handler of [except] never gets to [success = False]. *)
Lemma restore_one_not_false debug pvname value :
  (restore_one str_of PV debug pvname value).2 ≠ Return false.
Proof.
  unfold restore_one.
  destruct (if debug then _ else _) as [printed|]; [|done].
  destruct (try_put PV pvname value) as [evs [[exctype excvalue]|]].
  - by rewrite format_error_restoring.
  - done.
Qed.

(** What the loop returns, when it returns, is the flag it was given. *)
Lemma restore_lines_returns_flag debug lines success b :
  (restore_lines json_loads str_of PV debug lines success).2 = Return b →
  b = success.
Proof.
  revert success. induction lines as [|line lines IH]; intros success; simpl.
  - congruence.
  - destruct (Py.startswith "<END" line); [simpl; congruence|].
    destruct (Py.startswith "#" line); [apply IH|].
    destruct (read_line json_loads line) as [[pvname value]|e]; [|done].
    pose proof (restore_one_not_false debug pvname value) as Hone.
    destruct (restore_one str_of PV debug pvname value) as [evs [[]|e]];
      simpl in *.
    + apply IH.
    + done.
    + done.
Qed.

(** A run of lines without the end mark either raises, whatever follows, or
    hands the flag on to what follows. *)
Lemma restore_lines_prefix debug pre success :
  (∀ l, l ∈ pre → Py.startswith "<END" l = false) →
  (∃ evs e, ∀ rest,
      restore_lines json_loads str_of PV debug (pre ++ rest) success
      = (evs, Raise e))
  ∨ (∃ evs success', ∀ rest,
      restore_lines json_loads str_of PV debug (pre ++ rest) success
      = emit evs (restore_lines json_loads str_of PV debug rest success')).
Proof.
  revert success. induction pre as [|line pre IH]; intros success Hpre.
  - right. exists [], success. intros rest. by rewrite emit_nil.
  - assert (Hline : Py.startswith "<END" line = false)
      by (apply Hpre; left).
    assert (Hpre' : ∀ l, l ∈ pre → Py.startswith "<END" l = false)
      by (intros l Hl; apply Hpre; by right).
    simpl. rewrite Hline.
    destruct (Py.startswith "#" line); [by apply IH|].
    destruct (read_line json_loads line) as [[pvname value]|e];
      [|left; by exists [], e].
    destruct (restore_one str_of PV debug pvname value) as [evs [kept|e]];
      [|left; by exists evs, e].
    destruct (IH (if kept then success else false) Hpre')
      as [(evs' & e & H)|(evs' & success' & H)].
    + left. exists (evs ++ evs'), e. intros rest. by rewrite H.
    + right. exists (evs ++ evs'), success'. intros rest.
      by rewrite H, emit_emit.
Qed.

(** A line without a space has no value to unpack. *)
Lemma split_line_no_space line :
  Py.has_char " " (Py.drop_last line) = false →
  split_line line = Raise ValueError.
Proof.
  intros H. unfold split_line. by rewrite (split1_none _ _ H).
Qed.

(** One round of the loop. *)
Lemma restore_lines_cons debug line lines success :
  restore_lines json_loads str_of PV debug (line :: lines) success
  = if Py.startswith "<END" line then ([], Return success)
    else if Py.startswith "#" line
    then restore_lines json_loads str_of PV debug lines success
    else
      match read_line json_loads line with
      | Raise e => ([], Raise e)
      | Return (pvname, value) =>
          match restore_one str_of PV debug pvname value with
          | (evs, Raise e) => (evs, Raise e)
          | (evs, Return kept) =>
              emit evs
                (restore_lines json_loads str_of PV debug lines
                   (if kept then success else false))
          end
      end.
Proof. reflexivity. Qed.

(** A writable channel is given the value of the line. *)
Lemma try_put_writable pvname value :
  raises (PV pvname) = None →
  connected (PV pvname) = true →
  write_access (PV pvname) = true →
  put_raises (PV pvname) = None →
  try_put PV pvname value = ([Put pvname value], None).
Proof. intros H1 H2 H3 H4. unfold try_put. by rewrite H1, H2, H3, H4. Qed.

(** A plain value is restored as it stands. *)
Lemma decode_value_plain value :
  Py.startswith "<JSON>:" value = false →
  Py.startswith "@array@" value = false →
  decode_value json_loads value = Return (Text value).
Proof. intros H1 H2. unfold decode_value. by rewrite H1, H2. Qed.

(** The words of a line [name value] followed by one more character. *)
Lemma split_line_name_value pvname value c :
  Py.no_space pvname = true →
  split_line (pvname +:+ " " +:+ value +:+ String c "")
  = Return (pvname, Py.strip value).
Proof.
  intros Hname. unfold split_line.
  replace (pvname +:+ " " +:+ value +:+ String c "")
    with ((pvname +:+ " " +:+ value) +:+ String c "")
    by (by rewrite !str_app_assoc).
  rewrite drop_last_snoc. simpl.
  rewrite split1_sep by (by apply no_space_has_char).
  simpl. by rewrite strip_no_space.
Qed.

End RestoreFacts.

(** C1.  [restore_pvs] never returns False: a channel that does not connect,
    or that cannot be written, only prints its diagnostic and leaves the
    flag as it is, and the handler of [except], the one place where the flag
    is cleared, raises TypeError before it gets there, its format having
    three conversions for four arguments.  With the save file of the single
    line [PV1 1] and a channel that does not connect, the diagnostic is
    printed and True is returned. *)
Theorem restore_pvs_never_returns_False :
  (∀ (J : Type) (json_loads : string → option J) (str_of : J → string)
     (PV : string → channel J) (read_file : string → option string)
     (filepath : string) (debug : bool),
      (restore_pvs json_loads str_of PV read_file filepath debug).2
      ≠ Return false)
  ∧ restore_pvs Json.loads Json.str_of Example.nothing
      (Example.one_file "pvs.sav" ("PV1 1" +:+ nl +:+ "<END>" +:+ nl))
      "pvs.sav" false
    = ([Print "Cannot connect to PV1"], Return true).
Proof.
  split; [|reflexivity].
  intros J json_loads str_of PV read_file filepath debug.
  unfold restore_pvs. destruct (read_file filepath) as [text|]; [|done].
  intros H. by apply restore_lines_returns_flag in H.
Qed.

(** C9.  A line before the end mark that is no comment and has no space in
    it (a blank line, say) makes the unpacking of line 52 raise ValueError,
    outside of any [try]: the restore ends with an exception whatever
    follows the line, and no line after it is looked at. *)
Theorem restore_aborts_on_line_without_space :
  ∀ (J : Type) (json_loads : string → option J) (str_of : J → string)
    (PV : string → channel J) (debug : bool)
    (pre : list string) (line : string) (success : bool),
    (∀ l, l ∈ pre → Py.startswith "<END" l = false) →
    Py.startswith "<END" line = false →
    Py.startswith "#" line = false →
    Py.has_char " " (Py.drop_last line) = false →
    read_line json_loads line = Raise ValueError
    ∧ ∃ evs e, ∀ post,
        restore_lines json_loads str_of PV debug (pre ++ line :: post) success
        = (evs, Raise e).
Proof.
  intros J json_loads str_of PV debug pre line success Hpre Hend Hhash Hsp.
  assert (Hread : read_line json_loads line = Raise ValueError).
  { unfold read_line. by rewrite split_line_no_space. }
  split; [done|].
  destruct (restore_lines_prefix json_loads str_of PV debug pre success Hpre)
    as [(evs & e & H)|(evs & success' & H)].
  - exists evs, e. intros post. apply H.
  - exists (evs ++ []), ValueError. intros post. rewrite H. simpl.
    by rewrite Hend, Hhash, Hread.
Qed.

Lemma restore_aborts_on_line_without_space_witness :
  ∃ evs e, ∀ post,
    restore_lines Json.loads Json.str_of Example.everything false
      (["PV1 1" +:+ nl] ++ nl :: post) true
    = (evs, Raise e).
Proof.
  apply (restore_aborts_on_line_without_space Json.t Json.loads Json.str_of
           Example.everything false ["PV1 1" +:+ nl] nl true).
  - intros l Hl. apply list_elem_of_singleton in Hl as ->. reflexivity.
  - reflexivity.
  - reflexivity.
  - reflexivity.
Defined.

(** The blank line of a save file: the first value is put, the restore
    raises ValueError, the third line is never reached. *)
Example restore_blank_line :
  restore_pvs Json.loads Json.str_of Example.everything
    (Example.one_file "pvs.sav"
       ("PV1 1" +:+ nl +:+ nl +:+ "PV2 2" +:+ nl +:+ "<END>" +:+ nl))
    "pvs.sav" false
  = ([Put "PV1" (Text "1")], Raise ValueError).
Proof. reflexivity. Qed.

(** C10.  Line 52 drops the last character of a data line whatever it is:
    two lines that differ in their last character only are split alike.
    So when the last line of a save file has no newline, the value that is
    put is the value of the line without its last character. *)
Theorem restore_drops_last_character :
  ∀ (J : Type) (json_loads : string → option J) (str_of : J → string)
    (PV : string → channel J) (read_file : string → option string)
    (filepath pvname value : string) (c : ascii),
    Py.no_space pvname = true →
    Py.startswith "<END" pvname = false →
    Py.startswith "#" pvname = false →
    Py.strip value = value →
    Py.startswith "<JSON>:" value = false →
    Py.startswith "@array@" value = false →
    Py.has_char "010" (pvname +:+ " " +:+ value +:+ String c "") = false →
    raises (PV pvname) = None →
    connected (PV pvname) = true →
    write_access (PV pvname) = true →
    put_raises (PV pvname) = None →
    read_file filepath = Some (pvname +:+ " " +:+ value +:+ String c "") →
    (∀ line c1 c2,
        split_line (line +:+ String c1 "") = split_line (line +:+ String c2 ""))
    ∧ restore_pvs json_loads str_of PV read_file filepath false
      = ([Put pvname (Text value)], Return true).
Proof.
  intros J json_loads str_of PV read_file filepath pvname value c
    Hname Hend Hhash Hstrip Hjson Harray Hnl Hr Hc Hw Hp Hfile.
  split.
  { intros line c1 c2. unfold split_line. by rewrite !drop_last_snoc. }
  unfold restore_pvs. rewrite Hfile.
  rewrite readlines_one_line; [|by destruct pvname|done].
  rewrite restore_lines_cons.
  unfold Py.startswith in *. simpl (" " +:+ _).
  rewrite !(str_prefix_sep _ pvname) by reflexivity.
  rewrite Hend, Hhash.
  unfold read_line.
  change (String " " (value +:+ String c ""))
    with (" " +:+ value +:+ String c "").
  rewrite split_line_name_value by done.
  rewrite Hstrip, decode_value_plain by done.
  unfold restore_one.
  rewrite try_put_writable by done. reflexivity.
Qed.

Lemma restore_drops_last_character_witness :
  restore_pvs Json.loads Json.str_of Example.everything
    (Example.one_file "pvs.sav" "PV1 12") "pvs.sav" false
  = ([Put "PV1" (Text "1")], Return true).
Proof.
  apply (restore_drops_last_character Json.t Json.loads Json.str_of
           Example.everything (Example.one_file "pvs.sav" "PV1 12")
           "pvs.sav" "PV1" "1" "2"); reflexivity.
Defined.

(** ** The save format: writing a value and reading it back *)

Lemma is_space_has_char (c : ascii) (s : string) :
  Ascii.is_space c = true → Py.no_space s = true → Py.has_char c s = false.
Proof.
  intros Hc. induction s as [|x s IH]; simpl; [done|].
  intros [Hx Hs]%andb_true_iff. rewrite (IH Hs), orb_false_r.
  destruct (Ascii.eqb_spec x c) as [->|]; [|done].
  by rewrite Hc in Hx.
Qed.

Lemma replace_array_mark (d : string) :
  Py.contains "@array@" d = false →
  Py.replace "@array@" "" ("@array@ " +:+ d) = String " " d.
Proof.
  intros Hd.
  change ("@array@ " +:+ d) with ("@array@" +:+ String " " d).
  rewrite replace_at_match. unfold Py.replace.
  change (Py.replace_go "@array@" "" 0 (String " " d))
    with (String " " (Py.replace_go "@array@" "" 0 d)).
  by rewrite replace_go_absent.
Qed.

Lemma strip_array_text (d : string) :
  Py.startswith "[" d = true → Py.strip d = d →
  Py.strip ("@array@ " +:+ d) = "@array@ " +:+ d.
Proof.
  intros [d' ->]%startswith_char Hd.
  assert (Hr : Py.rstrip (String "[" d') = String "[" d') by exact Hd.
  change (Py.strip ("@array@ " +:+ String "[" d'))
    with (Py.rstrip ("@array@ " +:+ String "[" d')).
  rewrite rstrip_app; rewrite Hr; done.
Qed.

Section FormatFacts.

Context {J : Type}.
Variable json_loads : string → option J.
Variable json_dumps : J → string.

Lemma decode_value_array (d : string) (a : J) :
  json_loads d = Some a →
  Py.startswith "[" d = true →
  Py.strip d = d →
  Py.contains "@array@" d = false →
  decode_value json_loads ("@array@ " +:+ d) = Return (Json a).
Proof.
  intros Hl Hb Hs Hc. unfold decode_value.
  change (Py.startswith "<JSON>:" ("@array@ " +:+ d)) with false.
  change (Py.startswith "@array@" ("@array@ " +:+ d)) with true.
  cbv iota. rewrite replace_array_mark by done.
  replace (Py.strip (String " " d)) with d by (by rewrite <- Hs at 1).
  apply startswith_char in Hb as [d' ->].
  change (Py.startswith "{" (String "[" d')) with false.
  cbv iota. simpl. by rewrite Hl.
Qed.

Lemma read_saved_line (pvname text : string) :
  Py.no_space pvname = true →
  Py.has_char "010" text = false →
  Py.readlines (save_line (pvname, text)) = [save_line (pvname, text)]
  ∧ split_line (save_line (pvname, text)) = Return (pvname, Py.strip text).
Proof.
  intros Hname Htext. unfold save_line. simpl fst. simpl snd. split.
  - replace (pvname +:+ " " +:+ text +:+ nl)
      with ((pvname +:+ " " +:+ text) +:+ nl)
      by (by rewrite !str_app_assoc).
    apply readlines_line. rewrite has_char_app, has_char_app.
    rewrite (is_space_has_char "010" pvname eq_refl Hname).
    by rewrite Htext.
  - unfold nl. by apply split_line_name_value.
Qed.

(** The line of an array, read back. *)
Lemma array_is_restored (thispv : channel J) (pvname : string)
    (previous : option string) :
  Py.no_space pvname = true →
  (1 < count thispv)%Z →
  type thispv ≠ "char" →
  json_loads (json_dumps (get_tolist thispv)) = Some (get_tolist thispv) →
  Py.startswith "[" (json_dumps (get_tolist thispv)) = true →
  Py.strip (json_dumps (get_tolist thispv)) = json_dumps (get_tolist thispv) →
  Py.contains "@array@" (json_dumps (get_tolist thispv)) = false →
  Py.has_char "010" (json_dumps (get_tolist thispv)) = false →
  ∃ text,
    encode_value json_dumps thispv previous = Some text
    ∧ Py.readlines (save_line (pvname, text)) = [save_line (pvname, text)]
    ∧ read_line json_loads (save_line (pvname, text))
      = Return (pvname, Json (get_tolist thispv)).
Proof.
  intros Hname Hcount Htype Hloads Hopen Hstrip Hmark Hnl.
  set (d := json_dumps (get_tolist thispv)) in *.
  exists ("@array@ " +:+ d). split.
  { unfold encode_value.
    replace (count thispv =? 1)%Z with false by (symmetry; lia).
    replace (1 <? count thispv)%Z with true by (symmetry; lia).
    apply String.eqb_neq in Htype. by rewrite Htype. }
  assert (Hnl' : Py.has_char "010" ("@array@ " +:+ d) = false)
    by (by rewrite has_char_app, Hnl).
  destruct (read_saved_line pvname ("@array@ " +:+ d) Hname Hnl')
    as [Hr Hs].
  split; [done|].
  unfold read_line. rewrite Hs, strip_array_text by done.
  by rewrite (decode_value_array d (get_tolist thispv)).
Qed.

End FormatFacts.

(** C2, as the code has it.  A scalar comes back as the string that was
    written when that string has no white space at either end, holds no
    newline and does not start with [<JSON>:] or [@array@].  An array of
    more than one element that is not of characters comes back as the array
    that was written when its JSON text is read back by [json.loads] as that
    array, is an array text without white space around it and holds neither
    a newline nor the mark [@array@]. *)
Theorem saved_value_is_restored :
  ∀ (J : Type) (json_loads : string → option J) (json_dumps : J → string)
    (thispv : channel J) (pvname : string) (previous : option string),
    Py.no_space pvname = true →
    ((count thispv = 1)%Z →
     Py.strip (get_str thispv) = get_str thispv →
     Py.startswith "<JSON>:" (get_str thispv) = false →
     Py.startswith "@array@" (get_str thispv) = false →
     Py.has_char "010" (get_str thispv) = false →
     ∃ text,
       encode_value json_dumps thispv previous = Some text
       ∧ Py.readlines (save_line (pvname, text)) = [save_line (pvname, text)]
       ∧ read_line json_loads (save_line (pvname, text))
         = Return (pvname, Text (get_str thispv)))
    ∧ ((1 < count thispv)%Z →
       type thispv ≠ "char" →
       json_loads (json_dumps (get_tolist thispv))
       = Some (get_tolist thispv) →
       Py.startswith "[" (json_dumps (get_tolist thispv)) = true →
       Py.strip (json_dumps (get_tolist thispv))
       = json_dumps (get_tolist thispv) →
       Py.contains "@array@" (json_dumps (get_tolist thispv)) = false →
       Py.has_char "010" (json_dumps (get_tolist thispv)) = false →
       ∃ text,
         encode_value json_dumps thispv previous = Some text
         ∧ Py.readlines (save_line (pvname, text)) = [save_line (pvname, text)]
         ∧ read_line json_loads (save_line (pvname, text))
           = Return (pvname, Json (get_tolist thispv))).
Proof.
  intros J json_loads json_dumps thispv pvname previous Hname. split.
  - intros Hcount Hstrip Hjson Harray Hnl.
    exists (get_str thispv). split.
    { unfold encode_value. by rewrite Hcount. }
    destruct (read_saved_line pvname (get_str thispv) Hname Hnl) as [Hr Hs].
    split; [done|].
    unfold read_line. rewrite Hs, Hstrip.
    by rewrite decode_value_plain.
  - intros Hcount Htype Hloads Hopen Hstrip Hmark Hnl.
    by apply array_is_restored.
Qed.

Lemma saved_value_is_restored_witness :
  (∃ text,
      encode_value Json.dumps Example.writable None = Some text
      ∧ Py.readlines (save_line ("PV1", text)) = [save_line ("PV1", text)]
      ∧ read_line Json.loads (save_line ("PV1", text))
        = Return ("PV1", Text "1.5"))
  ∧ (∃ text,
      encode_value Json.dumps Example.waveform None = Some text
      ∧ Py.readlines (save_line ("WAVE", text)) = [save_line ("WAVE", text)]
      ∧ read_line Json.loads (save_line ("WAVE", text))
        = Return ("WAVE", Json (Json.Arr [Json.Num 1; Json.Num 2; Json.Num 3]))).
Proof.
  split.
  - apply (saved_value_is_restored Json.t Json.loads Json.dumps
             Example.writable "PV1" None eq_refl); reflexivity.
  - apply (saved_value_is_restored Json.t Json.loads Json.dumps
             Example.waveform "WAVE" None eq_refl);
      [reflexivity|discriminate|reflexivity..].
Defined.

(** C2, as it is stated, fails: a scalar string with a leading space is
    written as it is and comes back without the space. *)
Lemma scalar_with_leading_space_not_restored :
  ¬ (∀ (pvname s : string),
        read_line Json.loads (save_line (pvname, s)) = Return (pvname, Text s)).
Proof. intros H. specialize (H "PV1" " on"). discriminate H. Qed.

(** ** The legacy prefix *)

(** A payload that does not hold the text [<JSON>:] is read alike under
    both prefixes. *)
Lemma legacy_prefix_without_marker :
  ∀ (J : Type) (json_loads : string → option J) (payload : string),
    Py.contains "<JSON>:" payload = false →
    decode_value json_loads ("<JSON>:" +:+ payload)
    = decode_value json_loads ("@array@" +:+ payload).
Proof.
  intros J json_loads payload Hp. unfold decode_value.
  unfold Py.startswith at 1. rewrite str_prefix_app.
  rewrite replace_at_match, (replace_absent _ _ _ Hp).
  change (Py.startswith "<JSON>:" ("@array@" +:+ payload)) with false.
  reflexivity.
Qed.

(** C8.  Line 54 replaces every [<JSON>:] of the value, not the leading one
    alone: an array that holds the string [<JSON>:] is read as the array of
    that string under the prefix [@array@] and as the array of the empty
    string under the legacy prefix.  The line of the claim, [<JSON>: [1,2,3]],
    is read as [@array@ [1,2,3]] is. *)
Theorem legacy_prefix_replaces_every_marker :
  decode_value Json.loads
    ("@array@ [" +:+ Json.quote +:+ "<JSON>:" +:+ Json.quote +:+ "]")
  = Return (Json (Json.Arr [Json.Str "<JSON>:"]))
  ∧ decode_value Json.loads
      ("<JSON>: [" +:+ Json.quote +:+ "<JSON>:" +:+ Json.quote +:+ "]")
    = Return (Json (Json.Arr [Json.Str ""]))
  ∧ decode_value Json.loads "<JSON>: [1,2,3]"
    = Return (Json (Json.Arr [Json.Num 1; Json.Num 2; Json.Num 3]))
  ∧ decode_value Json.loads "@array@ [1,2,3]"
    = Return (Json (Json.Arr [Json.Num 1; Json.Num 2; Json.Num 3])).
Proof. repeat split; reflexivity. Qed.

(** ** The request file *)

Section RequestFacts.

Variable parseFile : string → result (list group).
Variable items : gmap string string → list (string * string).

Local Notation "'parse'" := (_parse_request_file parseFile items).

(** Line 126 leaves the names and the includes. *)
Lemma filter_names_cons (g : group) (groups : list group) :
  filter (λ x, 0 < group_len x) (g :: groups)
  = match g with
    | Suppressed => filter (λ x, 0 < group_len x) groups
    | _ => g :: filter (λ x, 0 < group_len x) groups
    end.
Proof.
  destruct g.
  - by rewrite filter_cons_False by (simpl; lia).
  - by rewrite filter_cons_True by (simpl; lia).
  - by rewrite filter_cons_True by (simpl; lia).
Qed.

Lemma pv_names_filter (groups : list group) :
  pv_names (filter (λ x, 0 < group_len x) groups) = pv_names groups.
Proof.
  induction groups as [|g groups IH]; [done|].
  rewrite filter_names_cons. destruct g; simpl; by rewrite ?IH.
Qed.

Lemma spliced_filter scope f groups names :
  spliced parseFile items scope f (filter (λ x, 0 < group_len x) groups) names
  → spliced parseFile items scope f groups names.
Proof.
  revert names. induction groups as [|g groups IH]; intros names; [done|].
  rewrite filter_names_cons. destruct g as [|name|subfile macros].
  - intros H. constructor. by apply IH.
  - inversion 1; subst. constructor. by apply IH.
  - inversion 1; subst. econstructor; [done..|]. by apply IH.
Qed.

(** What an include line does to the store before the recursive call: one
    new object, after all the others, with the inherited bindings under
    those of the line. *)
Lemma include_scope macro_values (other : gmap string string) {A}
    (k : loc → M A) h :
  (do sub_macro_vals <- dict_copy macro_values;
   do u <- dict_update sub_macro_vals other;
   k sub_macro_vals) h
  = k (length h) (h ++ [other ∪ (h !!! macro_values)]).
Proof.
  unfold bind, dict_copy, dict_update, store in *. cbv beta iota.
  rewrite insert_app_r_alt by lia. rewrite Nat.sub_diag.
  rewrite lookup_total_app_r by lia. rewrite Nat.sub_diag. done.
Qed.

Lemma walk_include recurse request_file macro_values subfile macros ast
    result h :
  walk items recurse request_file macro_values
    (FileInclude subfile macros :: ast) result h
  = (do names <- recurse (include_path request_file subfile) (length h);
     walk items recurse request_file macro_values ast (result ++ names))
      (h ++ [dict_of_pairs macros ∪ (h !!! macro_values)]).
Proof.
  simpl.
  apply (include_scope macro_values (dict_of_pairs macros)
           (λ sub, do names <- recurse (include_path request_file subfile) sub;
                   walk items recurse request_file macro_values ast
                     (result ++ names))).
Qed.

(** The store only grows. *)
Lemma walk_extends recurse request_file macro_values ast :
  (∀ f mv h, h `prefix_of` (recurse f mv h).1) →
  ∀ result h,
    h `prefix_of`
      (walk items recurse request_file macro_values ast result h).1.
Proof.
  intros Hrec. induction ast as [|g ast IH]; intros result h.
  - done.
  - destruct g as [|name|subfile macros].
    + done.
    + simpl. unfold bind, dict_items. apply IH.
    + rewrite walk_include. unfold bind.
      pose proof (Hrec (include_path request_file subfile) (length h)
                    (h ++ [dict_of_pairs macros ∪ (h !!! macro_values)]))
        as Hsub.
      destruct (recurse _ _ _) as [h' [names|e]]; simpl in Hsub.
      * etrans; [|apply IH]. etrans; [|exact Hsub].
        by apply prefix_app_r.
      * simpl. etrans; [|exact Hsub]. by apply prefix_app_r.
Qed.

Lemma parse_extends fuel request_file macro_values h :
  h `prefix_of` (parse fuel request_file macro_values h).1.
Proof.
  revert request_file macro_values h.
  induction fuel as [|fuel IH]; intros request_file macro_values h.
  - done.
  - simpl. destruct (parseFile request_file) as [groups|e]; [|done].
    by apply walk_extends.
Qed.

Lemma prefix_lookup_total (h h' : list (gmap string string)) (l : nat) :
  h `prefix_of` h' → l < length h → h' !!! l = h !!! l.
Proof.
  unfold store in *. intros [k ->] Hl. by rewrite lookup_total_app_l.
Qed.

(** A file without include lines: the names, expanded, in their order; the
    store is left as it is. *)
Lemma walk_no_include recurse request_file macro_values ast result h :
  (∀ g, g ∈ ast → is_include g = false) →
  walk items recurse request_file macro_values
    (filter (λ x, 0 < group_len x) ast) result h
  = (h, Return (result
                ++ (expand_macros (items (h !!! macro_values))
                      <$> pv_names ast))).
Proof.
  revert result. induction ast as [|g ast IH]; intros result Hast.
  - simpl. unfold ret. by rewrite (right_id_L [] (++)).
  - assert (Hg : is_include g = false) by (apply Hast; left).
    assert (Hast' : ∀ g', g' ∈ ast → is_include g' = false)
      by (intros g' Hg'; apply Hast; by right).
    rewrite filter_names_cons.
    destruct g as [|name|subfile macros]; [| |done].
    + simpl. by apply IH.
    + simpl. unfold bind, dict_items. rewrite IH by done.
      by rewrite <- (assoc_L (++)).
Qed.

(** From the function to the relation. *)
Lemma walk_spliced fuel :
  (∀ f mv h h' names,
      mv < length h →
      parse fuel f mv h = (h', Return names) →
      ∃ groups, parseFile f = Return groups
                ∧ spliced parseFile items (h !!! mv) f groups names) →
  ∀ f mv ast result h h' out,
    mv < length h →
    walk items (parse fuel) f mv ast result h = (h', Return out) →
    ∃ names, out = result ++ names
             ∧ spliced parseFile items (h !!! mv) f ast names.
Proof.
  intros Hfuel f mv ast.
  induction ast as [|g ast IH]; intros result h h' out Hmv Hwalk.
  - simpl in Hwalk. injection Hwalk as _ <-. exists [].
    split; [by rewrite (right_id_L [] (++))|constructor].
  - destruct g as [|name|subfile macros].
    + done.
    + simpl in Hwalk. unfold bind, dict_items in Hwalk.
      destruct (IH _ _ _ _ Hmv Hwalk) as (names & -> & Hs).
      exists (expand_macros (items (h !!! mv)) name :: names).
      split; [by rewrite <- (assoc_L (++))|by constructor].
    + rewrite walk_include in Hwalk. unfold bind, store, loc in *.
      set (h1 := h ++ [dict_of_pairs macros ∪ (h !!! mv)]) in *.
      pose proof (parse_extends fuel (include_path f subfile) (length h) h1)
        as Hext.
      destruct (parse fuel (include_path f subfile) (length h) h1)
        as [h2 [sub_names|e]] eqn:Hsub; simpl in Hwalk, Hext; [|done].
      assert (Hl1 : length h < length h1)
        by (unfold h1; rewrite length_app; simpl; lia).
      destruct (Hfuel _ _ _ _ _ Hl1 Hsub) as (sub_ast & Hparse & Hs1).
      assert (Hh1 : h `prefix_of` h1) by (by apply prefix_app_r).
      assert (Hh2 : h `prefix_of` h2) by (by etrans).
      assert (Hmv2 : mv < length h2).
      { apply prefix_length in Hh2. lia. }
      destruct (IH _ _ _ _ Hmv2 Hwalk) as (names & -> & Hs2).
      rewrite (prefix_lookup_total h h2 mv Hh2 Hmv) in Hs2.
      exists (sub_names ++ names).
      split; [by rewrite (assoc_L (++))|].
      econstructor; [exact Hparse| |exact Hs2].
      replace (h1 !!! length h) with (dict_of_pairs macros ∪ (h !!! mv))
        in Hs1; [done|].
      unfold h1, store in *. rewrite lookup_total_app_r by lia.
      by rewrite Nat.sub_diag.
Qed.

Lemma parse_spliced fuel f mv h h' names :
  mv < length h →
  parse fuel f mv h = (h', Return names) →
  ∃ groups, parseFile f = Return groups
            ∧ spliced parseFile items (h !!! mv) f groups names.
Proof.
  revert f mv h h' names.
  induction fuel as [|fuel IH]; intros f mv h h' names Hmv Hrun.
  - done.
  - simpl in Hrun. destruct (parseFile f) as [groups|e] eqn:Hf; [|done].
    destruct (walk_spliced fuel IH _ _ _ _ _ _ _ Hmv Hrun)
      as (names' & -> & Hs).
    exists groups. split; [done|]. by apply spliced_filter.
Qed.

(** From the relation to the function: enough fuel gives the names. *)
Lemma spliced_walk scope f ast names :
  spliced parseFile items scope f ast names →
  ∃ fuel, ∀ fuel', fuel ≤ fuel' →
    ∀ mv h result,
      mv < length h → h !!! mv = scope →
      ∃ h', walk items (parse fuel') f mv
              (filter (λ x, 0 < group_len x) ast) result h
            = (h', Return (result ++ names)).
Proof.
  induction 1 as [scope f|scope f ast names _ IH|scope f pvname ast names _ IH
                 |scope f subfile macros sub_ast sub_names ast names
                    Hparse _ IHsub _ IHrest].
  - exists 0. intros fuel' _ mv h result _ _. exists h.
    simpl. unfold ret. by rewrite (right_id_L [] (++)).
  - destruct IH as [fuel IH]. exists fuel.
    intros fuel' Hfuel mv h result Hmv Hscope.
    rewrite filter_names_cons. by apply IH.
  - destruct IH as [fuel IH]. exists fuel.
    intros fuel' Hfuel mv h result Hmv Hscope.
    rewrite filter_names_cons.
    simpl. unfold bind, dict_items, store, loc in *. rewrite Hscope.
    destruct (IH fuel' Hfuel mv h
                (result ++ [expand_macros (items scope) pvname]) Hmv Hscope)
      as [h' Hw].
    exists h'. rewrite Hw. by rewrite <- (assoc_L (++)).
  - destruct IHsub as [fuel1 IHsub]. destruct IHrest as [fuel2 IHrest].
    exists (S fuel1 `max` fuel2).
    intros fuel' Hfuel mv h result Hmv Hscope.
    destruct fuel' as [|n]; [lia|].
    rewrite filter_names_cons, walk_include. unfold bind, store, loc in *.
    set (h1 := h ++ [dict_of_pairs macros ∪ (h !!! mv)]).
    assert (Hl1 : length h < length h1)
      by (unfold h1; rewrite length_app; simpl; lia).
    assert (Hscope1 : h1 !!! length h = dict_of_pairs macros ∪ scope).
    { unfold h1, store in *. rewrite lookup_total_app_r by lia.
      by rewrite Nat.sub_diag, Hscope. }
    destruct (IHsub n ltac:(lia) (length h) h1 [] Hl1 Hscope1) as [h2 Hsub].
    pose proof (parse_extends (S n) (include_path f subfile) (length h) h1)
      as Hext.
    assert (Hrun : parse (S n) (include_path f subfile) (length h) h1
                   = (h2, Return sub_names)).
    { simpl. rewrite Hparse. exact Hsub. }
    rewrite Hrun in Hext |- *. simpl in Hext.
    assert (Hh2 : h `prefix_of` h2).
    { etrans; [|exact Hext]. by apply prefix_app_r. }
    assert (Hmv2 : mv < length h2).
    { apply prefix_length in Hh2. lia. }
    assert (Hscope2 : h2 !!! mv = scope)
      by (by rewrite (prefix_lookup_total h h2 mv Hh2 Hmv)).
    destruct (IHrest (S n) ltac:(lia) mv h2 (result ++ sub_names)
                Hmv2 Hscope2) as [h3 Hrest].
    exists h3. rewrite Hrest. by rewrite (assoc_L (++)).
Qed.

End RequestFacts.

Lemma dict_of_pairs_snoc (macros : list (string * string)) (m v : string) :
  dict_of_pairs (macros ++ [(m, v)]) = <[m := v]> (dict_of_pairs macros).
Proof. unfold dict_of_pairs. by rewrite fold_left_app. Qed.

(** The last assignment of a name is the one that counts. *)
Lemma dict_of_pairs_last_wins (macros : list (string * string)) :
  dict_of_pairs macros = list_to_map (reverse macros).
Proof.
  induction macros as [|[m v] macros IH] using rev_ind; [done|].
  by rewrite dict_of_pairs_snoc, reverse_snoc, IH.
Qed.

Lemma items_empty (items : gmap string string → list (string * string)) :
  (∀ d, items d ≡ₚ map_to_list d) → items ∅ = [].
Proof.
  intros H. apply Permutation_nil_r. by rewrite H, map_to_list_empty.
Qed.

Lemma expand_no_macros (names : list string) :
  expand_macros [] <$> names = names.
Proof.
  induction names as [|n names IH]; [done|].
  rewrite fmap_cons, IH. done.
Qed.

(** C6.  A request file without include lines gives its PV names in the
    order of its lines, comments left out; in general the names are those of
    the depth-first splice: the function returns a list, with enough fuel,
    exactly when the list is the splice. *)
Theorem parse_request_file_keeps_order :
  ∀ (parseFile : string → result (list group))
    (items : gmap string string → list (string * string)),
    (∀ d, items d ≡ₚ map_to_list d) →
    (∀ fuel request_file groups,
        parseFile request_file = Return groups →
        (∀ g, g ∈ groups → is_include g = false) →
        _parse_request_file parseFile items (S fuel) request_file
          default_macro_values initial_store
        = (initial_store, Return (pv_names groups)))
    ∧ (∀ request_file groups (macro_values : nat)
         (h : list (gmap string string)) names,
          parseFile request_file = Return groups →
          macro_values < length h →
          (∃ fuel h',
              _parse_request_file parseFile items fuel request_file
                macro_values h = (h', Return names))
          ↔ spliced parseFile items (h !!! macro_values) request_file
              groups names).
Proof.
  intros parseFile items Hitems. split.
  - intros fuel request_file groups Hfile Hgroups.
    simpl. rewrite Hfile, walk_no_include by done.
    change (initial_store !!! default_macro_values)
      with (∅ : gmap string string).
    by rewrite (items_empty items Hitems), expand_no_macros.
  - intros request_file groups macro_values h names Hfile Hmv. split.
    + intros (fuel & h' & Hrun).
      destruct (parse_spliced parseFile items fuel _ _ _ _ _ Hmv Hrun)
        as (groups' & Hfile' & Hs).
      rewrite Hfile in Hfile'. by injection Hfile' as <-.
    + intros Hs.
      destruct (spliced_walk parseFile items _ _ _ _ Hs) as [fuel Hfuel].
      destruct (Hfuel fuel ltac:(lia) macro_values h [] Hmv eq_refl)
        as [h' Hwalk].
      exists (S fuel), h'. simpl. by rewrite Hfile.
Qed.

Lemma parse_request_file_keeps_order_witness :
  _parse_request_file Example.requests map_to_list 1 "plain.req"
    default_macro_values initial_store
  = (initial_store, Return ["PV1"; "WAVE"; "PV3"])
  ∧ spliced Example.requests map_to_list ∅ "top.req"
      [PVName "PV:ONE"; FileInclude "sub.req" [("A", "10")]]
      ["PV:ONE"; "PV:TWO_10"].
Proof.
  destruct (parse_request_file_keeps_order Example.requests map_to_list
              (λ d, reflexivity (map_to_list d))) as [Hplain Hsplice].
  split.
  - apply (Hplain 0 "plain.req"
             [Suppressed; PVName "PV1"; PVName "WAVE"; Suppressed;
              PVName "PV3"]).
    + reflexivity.
    + intros g Hg. repeat (apply elem_of_cons in Hg as [->|Hg]; [done|]).
      by apply elem_of_nil in Hg.
  - apply (Hsplice "top.req"
             [PVName "PV:ONE"; FileInclude "sub.req" [("A", "10")]]
             default_macro_values initial_store ["PV:ONE"; "PV:TWO_10"]).
    + reflexivity.
    + unfold default_macro_values, initial_store. simpl. lia.
    + exists 2.
      exists (_parse_request_file Example.requests map_to_list 2 "top.req"
                default_macro_values initial_store).1.
      vm_compute. reflexivity.
Defined.

(** C7.  The call leaves every dictionary of the store as it found it, the
    default one among them, and puts its own after them.  An include line
    hands to the recursive call a dictionary that did not exist before, in
    which a name assigned on the line has the value of its last assignment
    there, and any other name the value it had in the inherited
    dictionary. *)
Theorem include_scope_is_a_fresh_copy :
  ∀ (parseFile : string → result (list group))
    (items : gmap string string → list (string * string)),
    (∀ fuel request_file (macro_values : nat)
       (h : list (gmap string string)),
        h `prefix_of`
          (_parse_request_file parseFile items fuel request_file
             macro_values h).1)
    ∧ (∀ fuel request_file,
          (_parse_request_file parseFile items fuel request_file
             default_macro_values initial_store).1 !! default_macro_values
          = Some ∅)
    ∧ (∀ recurse request_file (macro_values : nat) subfile macros ast result
         (h : list (gmap string string)),
          walk items recurse request_file macro_values
            (FileInclude subfile macros :: ast) result h
          = (do names <- recurse (include_path request_file subfile)
                           (length h);
             walk items recurse request_file macro_values ast
               (result ++ names))
              (h ++ [dict_of_pairs macros ∪ (h !!! macro_values)]))
    ∧ (∀ macros (inherited : gmap string string) (m : string),
          (dict_of_pairs macros ∪ inherited) !! m
          = match (list_to_map (reverse macros) : gmap string string) !! m with
            | Some v => Some v
            | None => inherited !! m
            end).
Proof.
  intros parseFile items. repeat split.
  - intros. apply parse_extends.
  - intros fuel request_file.
    destruct (parse_extends parseFile items fuel request_file
                default_macro_values initial_store) as [k ->].
    reflexivity.
  - intros. apply walk_include.
  - intros macros inherited m. rewrite <- dict_of_pairs_last_wins.
    rewrite lookup_union.
    destruct (dict_of_pairs macros !! m), (inherited !! m); done.
Qed.

(** ** Include paths *)

Lemma rev_app_spec (a acc : string) :
  String.rev_app a acc = String.rev a +:+ acc.
Proof.
  unfold String.rev. revert acc.
  induction a as [|c a IH]; intros acc; [done|].
  simpl. rewrite (IH (String c acc)), (IH (String c "")).
  by rewrite str_app_assoc.
Qed.

Lemma rev_cons (c : ascii) (s : string) :
  String.rev (String c s) = String.rev s +:+ String c "".
Proof. unfold String.rev at 1. simpl. apply rev_app_spec. Qed.

Lemma rev_snoc (s : string) (c : ascii) :
  String.rev (s +:+ String c "") = String c (String.rev s).
Proof.
  induction s as [|x s IH]; [done|].
  simpl. by rewrite !rev_cons, IH.
Qed.

Lemma rev_involutive (s : string) : String.rev (String.rev s) = s.
Proof.
  induction s as [|c s IH]; [done|].
  by rewrite rev_cons, rev_snoc, IH.
Qed.



Lemma head_of_no_slash (base : string) :
  Py.has_char "/" base = false → Posixpath.head_of base = "".
Proof.
  induction base as [|c base IH]; [done|]. simpl.
  intros [Hc Hb]%orb_false_iff. by rewrite (IH Hb), Hc.
Qed.






(** ** Saving *)

Section SaveFacts.

Context {J : Type}.
Variable json_dumps : J → string.
Variable PV : string → channel J.

Lemma format_cannot_connect (pvname : string) :
  Py.format "Cannot connect to %s" [pvname]
  = Some ("Cannot connect to " +:+ pvname).
Proof. by apply (format_one "Cannot connect to " pvname). Qed.

(** With one element or more, one of the three branches is taken, whatever
    [value] held before. *)
Lemma encode_value_counted (thispv : channel J) (value : option string) :
  (1 ≤ count thispv)%Z →
  encode_value json_dumps thispv value = Some (text_of json_dumps thispv).
Proof.
  intros Hcount. unfold text_of, encode_value.
  destruct (count thispv =? 1)%Z eqn:H1; [done|].
  replace (1 <? count thispv)%Z with true by (symmetry; lia).
  by destruct (String.eqb (type thispv) "char").
Qed.

Lemma save_loop_cons pvname pvnames value pv_vals :
  save_loop json_dumps PV (pvname :: pvnames) value pv_vals
  = if negb (connected (PV pvname)) then
      match Py.format "Cannot connect to %s" [pvname] with
      | Some line =>
          emit [Print line] (save_loop json_dumps PV pvnames value pv_vals)
      | None => ([], Raise TypeError)
      end
    else
      match encode_value json_dumps (PV pvname) value with
      | None => ([], Raise UnboundLocalError)
      | Some v =>
          save_loop json_dumps PV pvnames (Some v) (pv_vals ++ [(pvname, v)])
      end.
Proof. reflexivity. Qed.

Lemma save_loop_collects pvnames value pv_vals :
  (∀ pvn, pvn ∈ pvnames →
          connected (PV pvn) = true → (1 ≤ count (PV pvn))%Z) →
  save_loop json_dumps PV pvnames value pv_vals
  = (diagnostics PV pvnames,
     Return (pv_vals ++ collected json_dumps PV pvnames)).
Proof.
  revert value pv_vals.
  induction pvnames as [|pvn pvnames IH]; intros value pv_vals Hcount.
  - unfold diagnostics, collected. simpl. by rewrite (right_id_L [] (++)).
  - assert (Hrest : ∀ n, n ∈ pvnames →
                         connected (PV n) = true → (1 ≤ count (PV n))%Z)
      by (intros n Hn; apply Hcount; by right).
    rewrite save_loop_cons. unfold diagnostics, collected in *.
    destruct (connected (PV pvn)) eqn:Hc; cbv beta iota delta [negb].
    + rewrite encode_value_counted by (apply Hcount; [left|done]).
      rewrite IH by done.
      rewrite filter_cons_False by (by rewrite Hc).
      rewrite filter_cons_True by done.
      rewrite fmap_cons, <- (assoc_L (++)). done.
    + rewrite format_cannot_connect, IH by done.
      rewrite filter_cons_True by done.
      rewrite filter_cons_False by (by rewrite Hc).
      done.
Qed.

End SaveFacts.

(** X15.  When the request file resolves to a list of names, no [PV] or
    [connect] raises and every connected channel has one element or more,
    [save_pvs] prints [Cannot connect to <name>] for every name that does
    not connect and writes the save file all the same: the two comment lines
    of the header, one line [name value] for every name that does connect,
    in the order of the resolved list, and the line [<END>]. *)
Theorem save_pvs_skips_unconnected :
  ∀ (J : Type) (json_dumps : J → string) (PV : string → channel J)
    (now : string) (parseFile : string → result (list group))
    (items : gmap string string → list (string * string))
    (fuel : nat) (request_file save_file : string) (debug : bool)
    (h h' : list (gmap string string)) (pvnames : list string),
    _parse_request_file parseFile items fuel request_file
      default_macro_values h = (h', Return pvnames) →
    (∀ pvn, pvn ∈ pvnames → raises (PV pvn) = None) →
    (∀ pvn, pvn ∈ pvnames →
            connected (PV pvn) = true → (1 ≤ count (PV pvn))%Z) →
    let pv_vals :=
      (λ pvn, (pvn, text_of json_dumps (PV pvn)))
        <$> filter (λ pvn, connected (PV pvn) = true) pvnames in
    save_pvs json_dumps PV now parseFile items fuel request_file save_file
      debug h
    = (h',
       (((λ pvn, Print ("Cannot connect to " +:+ pvn))
           <$> filter (λ pvn, connected (PV pvn) = false) pvnames)
        ++ (if debug then debug_lines pv_vals else [])
        ++ [Write save_file
              (("# File saved by pyepics autosave.save_pvs() on "
                  +:+ now +:+ nl)
               +:+ ("# Edit with extreme care." +:+ nl)
               +:+ Py.concat
                     ((λ v, v.1 +:+ " " +:+ v.2 +:+ nl) <$> pv_vals)
               +:+ ("<END>" +:+ nl))],
        Return ())).
Proof.
  intros J json_dumps PV now parseFile items fuel request_file save_file
    debug h h' pvnames Hparse Hraises Hcount pv_vals.
  unfold save_pvs. rewrite Hparse.
  assert (Hfind : list_find (λ pvn, is_Some (raises (PV pvn))) pvnames = None).
  { apply list_find_None, Forall_forall. intros pvn Hpvn.
    rewrite (Hraises pvn Hpvn). by intros [? ?]. }
  rewrite Hfind, (save_loop_collects json_dumps PV) by done.
  reflexivity.
Qed.

Lemma save_pvs_skips_unconnected_witness :
  save_pvs Json.dumps Example.ioc "2011-06-01T12:00:00" Example.requests
    map_to_list 1 "plain.req" "plain.sav" false initial_store
  = (initial_store,
     ([Print "Cannot connect to PV3";
       Write "plain.sav"
         (("# File saved by pyepics autosave.save_pvs() on "
             +:+ "2011-06-01T12:00:00" +:+ nl)
          +:+ ("# Edit with extreme care." +:+ nl)
          +:+ ("PV1 1.5" +:+ nl)
          +:+ ("WAVE @array@ [1, 2, 3]" +:+ nl)
          +:+ ("<END>" +:+ nl))],
      Return ())).
Proof.
  apply (save_pvs_skips_unconnected Json.t Json.dumps Example.ioc
           "2011-06-01T12:00:00" Example.requests map_to_list 1
           "plain.req" "plain.sav" false initial_store initial_store
           ["PV1"; "WAVE"; "PV3"]).
  - reflexivity.
  - intros pvn Hpvn.
    repeat (apply elem_of_cons in Hpvn as [->|Hpvn]; [reflexivity|]).
    by apply elem_of_nil in Hpvn.
  - intros pvn Hpvn.
    repeat (apply elem_of_cons in Hpvn as [->|Hpvn];
            [vm_compute; (discriminate || congruence)|]).
    by apply elem_of_nil in Hpvn.
Defined.

(** C3.  The save does abort on a request whose names all resolve and
    whose channels raise nothing: with [GONE] that does not connect,
    [EMPTY] that connects with a count of 0 and [PV1] that connects with
    one element, [save_pvs] prints the diagnostic for [GONE], then finds
    [value] unbound at line 102 and raises UnboundLocalError.  No file is
    written, where the docstring and line 102 mean a line for every
    channel that connects: lines 96-101 have a branch for a count of 1 and
    two for a count above 1, and none for the rest. *)
Theorem save_pvs_aborts_on_empty_channel :
  let run :=
    save_pvs Json.dumps Sample.ioc "2011-06-01T12:00:00"
      (λ _, Return [PVName "GONE"; PVName "EMPTY"; PVName "PV1"])
      map_to_list 1 "pvs.req" "pvs.sav" false initial_store in
  _parse_request_file
    (λ _, Return [PVName "GONE"; PVName "EMPTY"; PVName "PV1"])
    map_to_list 1 "pvs.req" default_macro_values initial_store
  = (initial_store, Return ["GONE"; "EMPTY"; "PV1"])
  ∧ Forall (λ pvn, raises (Sample.ioc pvn) = None) ["GONE"; "EMPTY"; "PV1"]
  ∧ connected (Sample.ioc "GONE") = false
  ∧ connected (Sample.ioc "EMPTY") = true
  ∧ connected (Sample.ioc "PV1") = true
  ∧ count (Sample.ioc "EMPTY") = 0%Z
  ∧ run.2.2 = Raise UnboundLocalError
  ∧ run.2.1 = [Print "Cannot connect to GONE"]
  ∧ ∀ path text, Write path text ∉ run.2.1.
Proof.
  repeat split; try reflexivity.
  - repeat constructor.
  - intros path text Hin.
    apply list_elem_of_singleton in Hin. discriminate Hin.
Qed.

(** ** Macro expansion *)

Lemma replace_go_unfold (old new : string) (c : ascii) (s : string) :
  Py.replace_go old new 0 (String c s)
  = if String.prefix old (String c s)
    then new +:+ Py.replace_go old new (String.length old - 1) s
    else String c (Py.replace_go old new 0 s).
Proof. reflexivity. Qed.

(** Text without [$] is copied: no placeholder starts in it. *)
Lemma replace_go_lit (old new lit rest : string) :
  Py.has_char "$" lit = false →
  Py.replace_go (String "$" old) new 0 (lit +:+ rest)
  = lit +:+ Py.replace_go (String "$" old) new 0 rest.
Proof.
  induction lit as [|c lit IH]; [done|].
  intros [Hc Hl]%orb_false_iff.
  change (String c lit +:+ rest) with (String c (lit +:+ rest)).
  rewrite replace_go_unfold, str_prefix_cons.
  rewrite bool_decide_eq_false_2.
  - simpl. by rewrite IH.
  - intros <-. by rewrite Ascii.eqb_refl in Hc.
Qed.

(** Two names without [)] that are followed by [)] agree when one is found
    at the start of the other. *)
Lemma prefix_closing (m n rest : string) :
  Py.has_char ")" m = false →
  Py.has_char ")" n = false →
  String.prefix (m +:+ ")") (n +:+ String ")" rest) = true →
  m = n.
Proof.
  revert n. induction m as [|x m IH]; intros [|y n] Hm Hn Hp.
  - done.
  - simpl in Hn. apply orb_false_iff in Hn as [Hy _].
    change ("" +:+ ")") with (String ")" "") in Hp.
    change (String y n +:+ String ")" rest)
      with (String y (n +:+ String ")" rest)) in Hp.
    rewrite str_prefix_cons in Hp. apply andb_true_iff in Hp as [Hp _].
    apply bool_decide_eq_true in Hp as <-.
    by rewrite Ascii.eqb_refl in Hy.
  - simpl in Hm. apply orb_false_iff in Hm as [Hx _].
    change (String x m +:+ ")") with (String x (m +:+ ")")) in Hp.
    change ("" +:+ String ")" rest) with (String ")" rest) in Hp.
    rewrite str_prefix_cons in Hp. apply andb_true_iff in Hp as [Hp _].
    apply bool_decide_eq_true in Hp as ->.
    by rewrite Ascii.eqb_refl in Hx.
  - simpl in Hm, Hn.
    apply orb_false_iff in Hm as [_ Hm].
    apply orb_false_iff in Hn as [_ Hn].
    change (String x m +:+ ")") with (String x (m +:+ ")")) in Hp.
    change (String y n +:+ String ")" rest)
      with (String y (n +:+ String ")" rest)) in Hp.
    rewrite str_prefix_cons in Hp. apply andb_true_iff in Hp as [Hxy Hp].
    apply bool_decide_eq_true in Hxy as ->.
    f_equal. by apply IH.
Qed.

Lemma placeholder_unfold (m : string) :
  placeholder m = String "$" (String "(" (m +:+ ")")).
Proof. reflexivity. Qed.

Lemma placeholder_app (n rest : string) :
  placeholder n +:+ rest = String "$" (String "(" (n +:+ String ")" rest)).
Proof.
  rewrite placeholder_unfold. simpl. by rewrite str_app_assoc.
Qed.

(** A placeholder is replaced when its name is the one looked for, and
    copied otherwise. *)
Lemma replace_go_ref (m v n rest : string) :
  Py.has_char ")" m = false →
  Py.has_char "$" n = false →
  Py.has_char ")" n = false →
  Py.replace_go (placeholder m) v 0 (placeholder n +:+ rest)
  = (if decide (n = m) then v else placeholder n)
    +:+ Py.replace_go (placeholder m) v 0 rest.
Proof.
  intros Hm Hn1 Hn2. destruct (decide (n = m)) as [->|Hne].
  - rewrite placeholder_unfold.
    apply (replace_at_match "$" (String "(" (m +:+ ")")) v rest).
  - rewrite placeholder_app, replace_go_unfold.
    rewrite (placeholder_unfold m) at 1.
    rewrite !str_prefix_cons, !bool_decide_eq_true_2 by done.
    destruct (String.prefix (m +:+ ")") (n +:+ String ")" rest)) eqn:Hp.
    { destruct Hne. symmetry. by apply prefix_closing in Hp. }
    simpl andb. cbv iota.
    rewrite (placeholder_unfold m).
    change (String "(" (n +:+ String ")" rest))
      with (String "(" n +:+ String ")" rest).
    replace (String "(" n +:+ String ")" rest)
      with ((String "(" n +:+ ")") +:+ rest)
      by (by rewrite str_app_assoc).
    rewrite replace_go_lit.
    + rewrite (placeholder_unfold n). simpl. by rewrite str_app_assoc.
    + simpl. rewrite has_char_app, Hn1. done.
Qed.

Lemma render_cons (p : piece) (ps : list piece) :
  render (p :: ps) = render_piece p +:+ render ps.
Proof. reflexivity. Qed.

Lemma replace_render (m v : string) (ps : list piece) :
  Py.has_char ")" m = false →
  forallb piece_ok ps = true →
  Py.replace (placeholder m) v (render ps)
  = render (bind_piece m v <$> ps).
Proof.
  intros Hm.
  change (Py.replace (placeholder m) v (render ps))
    with (Py.replace_go (placeholder m) v 0 (render ps)).
  induction ps as [|p ps IH]; [done|].
  intros [Hp Hps]%andb_true_iff.
  rewrite fmap_cons, !render_cons. destruct p as [text|n].
  - simpl in Hp. apply negb_true_iff in Hp.
    rewrite placeholder_unfold, replace_go_lit by done.
    rewrite <- placeholder_unfold, IH by done. done.
  - simpl in Hp. apply andb_true_iff in Hp as [Hn1 Hn2].
    apply negb_true_iff in Hn1, Hn2.
    simpl render_piece at 1.
    rewrite replace_go_ref, IH by done.
    simpl. by destruct (decide (n = m)).
Qed.

Lemma bind_piece_ok (m v : string) (ps : list piece) :
  Py.has_char "$" v = false →
  forallb piece_ok ps = true →
  forallb piece_ok (bind_piece m v <$> ps) = true.
Proof.
  intros Hv. induction ps as [|p ps IH]; [done|].
  intros [Hp Hps]%andb_true_iff. rewrite fmap_cons. simpl.
  rewrite (IH Hps), andb_true_r.
  destruct p as [text|n]; [done|].
  simpl. destruct (decide (n = m)); [|done].
  simpl. by rewrite Hv.
Qed.

Lemma expanded_bind (m v : string) (scope : gmap string string)
    (ps : list piece) :
  expanded scope (bind_piece m v <$> ps) = expanded (<[m := v]> scope) ps.
Proof.
  unfold expanded. induction ps as [|p ps IH]; [done|].
  rewrite !fmap_cons. simpl. rewrite IH. f_equal.
  destruct p as [text|n]; [done|].
  simpl. destruct (decide (n = m)) as [->|Hne].
  - by rewrite lookup_insert_eq.
  - by rewrite lookup_insert_ne.
Qed.

Lemma expanded_empty (ps : list piece) : expanded ∅ ps = render ps.
Proof.
  unfold expanded, render. induction ps as [|p ps IH]; [done|].
  rewrite !fmap_cons. simpl. rewrite IH. by f_equal.
Qed.

Lemma expand_render (kvs : list (string * string)) (ps : list piece) :
  forallb macro_ok kvs = true →
  forallb piece_ok ps = true →
  expand_macros kvs (render ps) = expanded (list_to_map kvs) ps.
Proof.
  revert ps. induction kvs as [|[m v] kvs IH]; intros ps Hkvs Hps.
  - symmetry. apply expanded_empty.
  - simpl in Hkvs. apply andb_true_iff in Hkvs as [Hmv Hkvs].
    apply andb_true_iff in Hmv as [Hm Hv].
    apply negb_true_iff in Hm, Hv. simpl in Hm, Hv.
    change (expand_macros ((m, v) :: kvs) (render ps))
      with (expand_macros kvs (Py.replace (placeholder m) v (render ps))).
    rewrite replace_render by done.
    rewrite IH by (done || by apply bind_piece_ok).
    by rewrite expanded_bind.
Qed.

Lemma forallb_perm {A} (f : A → bool) (l l' : list A) :
  l ≡ₚ l' → forallb f l = forallb f l'.
Proof.
  induction 1 as [|x l l' _ IH|x y l|l l' l'' _ IH1 _ IH2]; simpl.
  - done.
  - by rewrite IH.
  - destruct (f x), (f y); done.
  - by rewrite IH1.
Qed.

Lemma list_to_map_items (scope : gmap string string)
    (kvs : list (string * string)) :
  kvs ≡ₚ map_to_list scope → list_to_map kvs = scope.
Proof.
  intros Hperm.
  transitivity (list_to_map (map_to_list scope) : gmap string string).
  - apply list_to_map_proper; [|done].
    rewrite Hperm. apply NoDup_fst_map_to_list.
  - apply list_to_map_to_list.
Qed.

(** C4, as the code has it.  Take a name made of text without [$] and of
    placeholders [$(NAME)] whose NAME has neither [$] nor [)], and a scope
    whose keys have no [)] and whose values have no [$].  Then the loop of
    lines 132-133 puts the bound value in the place of every placeholder
    whose NAME is bound and leaves every other placeholder as it is, and it
    does so in whatever order the dictionary gives its items. *)
Theorem macro_expansion_of_placeholders :
  ∀ (scope : gmap string string) (kvs : list (string * string))
    (ps : list piece),
    kvs ≡ₚ map_to_list scope →
    forallb macro_ok kvs = true →
    forallb piece_ok ps = true →
    expand_macros kvs (render ps) = expanded scope ps
    ∧ ∀ kvs', kvs' ≡ₚ kvs →
        expand_macros kvs' (render ps) = expand_macros kvs (render ps).
Proof.
  intros scope kvs ps Hperm Hkvs Hps.
  assert (Hspec : ∀ l, l ≡ₚ kvs → expand_macros l (render ps)
                                   = expanded scope ps).
  { intros l Hl.
    rewrite expand_render; [|by rewrite (forallb_perm _ _ _ Hl)|done].
    rewrite (list_to_map_items scope); [done|by rewrite Hl]. }
  split.
  - by apply Hspec.
  - intros kvs' Hkvs'. by rewrite !Hspec.
Qed.

Lemma macro_expansion_of_placeholders_witness :
  expand_macros [("A", "10"); ("P", "XF:")] "$(P)PV:TWO_$(A)$(Q)"
  = "XF:PV:TWO_10$(Q)"
  ∧ expand_macros [("P", "XF:"); ("A", "10")] "$(P)PV:TWO_$(A)$(Q)"
    = expand_macros [("A", "10"); ("P", "XF:")] "$(P)PV:TWO_$(A)$(Q)".
Proof.
  destruct (macro_expansion_of_placeholders
              (<["A" := "10"]> (<["P" := "XF:"]> ∅))
              [("A", "10"); ("P", "XF:")]
              [Ref "P"; Lit "PV:TWO_"; Ref "A"; Ref "Q"])
    as [Hvalue Horder].
  - vm_compute. reflexivity.
  - reflexivity.
  - reflexivity.
  - split.
    + exact Hvalue.
    + apply (Horder [("P", "XF:"); ("A", "10")]). apply Permutation_swap.
Defined.

(** C4, as it is stated, fails: the macros [A=$(B)] and [B=x] expand
    [$(A)] to [x] when [A] is taken first and to [$(B)] when [B] is. *)
Lemma macro_expansion_depends_on_order :
  ¬ (∀ (scope : gmap string string) (kvs1 kvs2 : list (string * string))
       (pvname : string),
        kvs1 ≡ₚ map_to_list scope →
        kvs2 ≡ₚ map_to_list scope →
        expand_macros kvs1 pvname = expand_macros kvs2 pvname).
Proof.
  intros H.
  specialize (H (<["A" := "$(B)"]> (<["B" := "x"]> ∅))
                [("A", "$(B)"); ("B", "x")] [("B", "x"); ("A", "$(B)")]
                "$(A)").
  assert (Hitems :
            map_to_list
              (<["A" := "$(B)"]> (<["B" := "x"]> ∅) : gmap string string)
            = [("A", "$(B)"); ("B", "x")])
    by (vm_compute; reflexivity).
  rewrite Hitems in H.
  specialize (H (reflexivity _) (Permutation_swap _ _ _)).
  vm_compute in H. discriminate H.
Qed.

(** ** The JSON fragment on arrays of integers

    What the fragment writes for an array of integers it reads back, and
    the text has the shape that the save format asks for: the arrays of
    integers are saved and restored without further condition. *)

Lemma is_nat_pretty_N_char (d : N) :
  (d < 10)%N → Ascii.is_nat (pretty_N_char d) = Some (N.to_nat d).
Proof.
  intros Hd.
  destruct d as [|p]; [done|].
  do 4 (destruct p as [p|p|]; try done; try lia).
Qed.

Lemma pretty_N_go_ind (P : N → Prop) :
  P 0%N →
  (∀ x, (0 < x)%N → P (x `div` 10)%N → P x) →
  ∀ x, P x.
Proof.
  intros H0 Hstep x. induction (N.lt_wf_0 x) as [x _ IH].
  destruct (decide (0 < x)%N) as [Hx|Hx].
  - apply Hstep; [done|]. apply IH. by apply N.div_lt.
  - by replace x with 0%N by lia.
Qed.

Lemma digits_value_pretty (x : N) (s : string) :
  Json.digits_value_go (pretty_N_go x s) 0 = Json.digits_value_go s (Z.of_N x).
Proof.
  revert s. induction x as [|x Hx IH] using pretty_N_go_ind; intros s.
  - by rewrite pretty_N_go_0.
  - rewrite pretty_N_go_step, IH by done. simpl.
    rewrite is_nat_pretty_N_char by (by apply N.mod_lt).
    f_equal. rewrite (N.div_mod x 10) at 3 by done. lia.
Qed.

Lemma is_digit_pretty_N_char (d : N) :
  (d < 10)%N → Json.is_digit (pretty_N_char d) = true.
Proof.
  intros Hd. unfold Json.is_digit. by rewrite is_nat_pretty_N_char.
Qed.

Lemma pretty_N_go_digits (x : N) (s : string) :
  Json.all_digits s = true → Json.all_digits (pretty_N_go x s) = true.
Proof.
  revert s. induction x as [|x Hx IH] using pretty_N_go_ind; intros s Hs.
  - by rewrite pretty_N_go_0.
  - rewrite pretty_N_go_step by done. apply IH. simpl.
    rewrite is_digit_pretty_N_char by (by apply N.mod_lt). done.
Qed.

Lemma pretty_N_go_first (x : N) (s : string) :
  (0 < x)%N →
  ∃ c ds d, pretty_N_go x s = String c ds ∧ Ascii.is_nat c = Some (S d).
Proof.
  revert s. induction x as [|x Hx IH] using pretty_N_go_ind; intros s H0.
  - lia.
  - rewrite pretty_N_go_step by done.
    destruct (decide (0 < x `div` 10)%N) as [Hdiv|Hdiv].
    + by apply IH.
    + assert (Hsmall : (x < 10)%N).
      { destruct (decide (x < 10)%N); [done|].
        destruct Hdiv. apply N.div_str_pos. lia. }
      rewrite (N.div_small x 10 Hsmall).
      rewrite pretty_N_go_0, N.mod_small by done.
      exists (pretty_N_char x), s, (pred (N.to_nat x)).
      split; [done|]. rewrite is_nat_pretty_N_char by done.
      f_equal. lia.
Qed.

Lemma number_positive (c : ascii) (ds : string) (d : nat) (z : Z) :
  Ascii.is_nat c = Some (S d) →
  Json.digits_value (String c ds) = Some z →
  Json.number (String c ds) = Json.Lit (Json.Num z).
Proof.
  intros Hc Hz. unfold Json.number.
  destruct c as [[] [] [] [] [] [] [] []]; try discriminate Hc;
    by rewrite Hz.
Qed.

Lemma number_negative (c : ascii) (ds : string) (d : nat) (z : Z) :
  Ascii.is_nat c = Some (S d) →
  Json.digits_value (String c ds) = Some z →
  Json.number (String "-" (String c ds)) = Json.Lit (Json.Num (- z)).
Proof.
  intros Hc Hz. unfold Json.number.
  destruct c as [[] [] [] [] [] [] [] []]; try discriminate Hc;
    by rewrite Hz.
Qed.

Lemma pretty_positive_digits (p : positive) :
  ∃ c ds d,
    pretty_N_go (N.pos p) "" = String c ds
    ∧ Ascii.is_nat c = Some (S d)
    ∧ Json.all_digits ds = true
    ∧ Json.digits_value (String c ds) = Some (Z.pos p).
Proof.
  destruct (pretty_N_go_first (N.pos p) "") as (c & ds & d & Heq & Hc); [lia|].
  exists c, ds, d. split; [done|]. split; [done|]. split.
  - pose proof (pretty_N_go_digits (N.pos p) "" eq_refl) as H.
    rewrite Heq in H. simpl in H. by apply andb_true_iff in H as [_ H].
  - rewrite <- Heq. unfold Json.digits_value.
    by rewrite digits_value_pretty.
Qed.

(** The lexeme of a printed integer: a first character that is a minus or a
    digit, digits after it, and the integer as its value. *)
Lemma pretty_Z_lexeme (z : Z) :
  ∃ c ds,
    pretty z = String c ds
    ∧ Json.idle_step c = ([], Json.InNum (String c ""))
    ∧ Json.all_digits ds = true
    ∧ Json.number (String c ds) = Json.Lit (Json.Num z).
Proof.
  destruct z as [|p|p].
  - by exists "0"%char, "".
  - destruct (pretty_positive_digits p) as (c & ds & d & Heq & Hc & Hds & Hz).
    exists c, ds. split; [exact Heq|]. split; [|split; [done|]].
    + destruct c as [[] [] [] [] [] [] [] []]; try discriminate Hc; done.
    + by apply (number_positive c ds d).
  - destruct (pretty_positive_digits p) as (c & ds & d & Heq & Hc & Hds & Hz).
    exists "-"%char, (String c ds). split; [|split; [done|split]].
    + change (pretty (Z.neg p)) with ("-" +:+ pretty_N_go (N.pos p) "").
      by rewrite Heq.
    + simpl. rewrite Hds, andb_true_r. unfold Json.is_digit. by rewrite Hc.
    + exact (number_negative c ds d (Z.pos p) Hc Hz).
Qed.

Lemma lex_digits (acc ds : string) (c : ascii) (rest : string) :
  Json.all_digits ds = true →
  Json.is_digit c = false →
  Json.lex (Json.InNum acc) (ds +:+ String c rest)
  = Json.number (String.rev (String.rev_app ds acc))
      :: (Json.idle_step c).1 ++ Json.lex (Json.idle_step c).2 rest.
Proof.
  revert acc. induction ds as [|x ds IH]; intros acc Hds Hc.
  - simpl. rewrite Hc. by destruct (Json.idle_step c).
  - simpl in Hds. apply andb_true_iff in Hds as [Hx Hds].
    simpl. rewrite Hx. by apply IH.
Qed.

Lemma lex_integer (z : Z) (c : ascii) (rest : string) :
  Json.is_digit c = false →
  Json.lex Json.Idle (pretty z +:+ String c rest)
  = Json.Lit (Json.Num z)
      :: (Json.idle_step c).1 ++ Json.lex (Json.idle_step c).2 rest.
Proof.
  intros Hc.
  destruct (pretty_Z_lexeme z) as (c0 & ds & -> & Hstep & Hds & Hnum).
  change (String c0 ds +:+ String c rest)
    with (String c0 (ds +:+ String c rest)).
  change (Json.lex Json.Idle (String c0 (ds +:+ String c rest)))
    with (let (toks, st') := Json.idle_step c0 in
          toks ++ Json.lex st' (ds +:+ String c rest)).
  rewrite Hstep. simpl app.
  rewrite lex_digits by done.
  rewrite rev_app_spec, rev_snoc, rev_involutive. by rewrite Hnum.
Qed.

Lemma concat_cons2 (sep x y : string) (l : list string) :
  String.concat sep (x :: y :: l) = x +:+ sep +:+ String.concat sep (y :: l).
Proof. reflexivity. Qed.

Lemma lex_elements (z : Z) (zs : list Z) :
  Json.lex Json.Idle
    (String.concat ", " (pretty <$> (z :: zs)) +:+ "]")
  = Json.array_tokens (z :: zs).
Proof.
  revert z. induction zs as [|z' zs IH]; intros z.
  - change (String.concat ", " (pretty <$> [z])) with (pretty z).
    by rewrite (lex_integer z "]" "").
  - rewrite !fmap_cons, concat_cons2, !str_app_assoc.
    change (", " +:+ String.concat ", " (pretty z' :: (pretty <$> zs)) +:+ "]")
      with (String ","
              (String " "
                 (String.concat ", " (pretty <$> (z' :: zs)) +:+ "]"))).
    rewrite (lex_integer z "," _) by done.
    change (Json.idle_step ",") with ([Json.Comma], Json.Idle).
    simpl fst. simpl snd.
    change (Json.lex Json.Idle
              (String " "
                 (String.concat ", " (pretty <$> (z' :: zs)) +:+ "]")))
      with (Json.lex Json.Idle
              (String.concat ", " (pretty <$> (z' :: zs)) +:+ "]")).
    by rewrite IH.
Qed.

Lemma items_array_tokens (z : Z) (zs : list Z) :
  Json.items (Json.array_tokens (z :: zs)) = Some (Json.Num <$> (z :: zs)).
Proof.
  revert z. induction zs as [|z' zs IH]; intros z; [done|].
  change (Json.array_tokens (z :: z' :: zs))
    with (Json.Lit (Json.Num z) :: Json.Comma :: Json.array_tokens (z' :: zs)).
  change (Json.items
            (Json.Lit (Json.Num z) :: Json.Comma :: Json.array_tokens (z' :: zs)))
    with ((λ l, Json.Num z :: l) <$> Json.items (Json.array_tokens (z' :: zs))).
  by rewrite IH.
Qed.

(** What [dumps] writes for an array of integers, [loads] reads back. *)
Lemma loads_dumps_integers (zs : list Z) :
  Json.loads (Json.dumps (Json.Arr (Json.Num <$> zs)))
  = Some (Json.Arr (Json.Num <$> zs)).
Proof.
  destruct zs as [|z zs]; [done|].
  unfold Json.loads, Json.dumps.
  rewrite <- list_fmap_compose.
  change (Json.dumps_atom ∘ Json.Num) with (pretty : Z → string).
  change (Json.lex Json.Idle
            ("[" +:+ String.concat ", " (pretty <$> (z :: zs)) +:+ "]"))
    with (Json.LBracket
            :: Json.lex Json.Idle
                 (String.concat ", " (pretty <$> (z :: zs)) +:+ "]")).
  rewrite lex_elements.
  destruct zs as [|z' zs].
  - done.
  - change (Json.array_tokens (z :: z' :: zs))
      with (Json.Lit (Json.Num z) :: Json.Comma :: Json.array_tokens (z' :: zs)).
    cbv iota beta.
    change (Json.Lit (Json.Num z) :: Json.Comma :: Json.array_tokens (z' :: zs))
      with (Json.array_tokens (z :: z' :: zs)).
    by rewrite items_array_tokens.
Qed.

(** The characters of the text of an array of integers. *)
Lemma has_char_cons (x c : ascii) (s : string) :
  Py.has_char x (String c s) = Ascii.eqb c x || Py.has_char x s.
Proof. reflexivity. Qed.

Lemma eqb_digit (x : ascii) (d : N) :
  Json.is_digit x = false → (d < 10)%N →
  Ascii.eqb (pretty_N_char d) x = false.
Proof.
  intros Hx Hd. apply Ascii.eqb_neq. intros <-.
  by rewrite is_digit_pretty_N_char in Hx.
Qed.

Lemma has_char_pretty_N_go (x : ascii) (n : N) (s : string) :
  Json.is_digit x = false →
  Py.has_char x (pretty_N_go n s) = Py.has_char x s.
Proof.
  intros Hx. revert s.
  induction n as [|n Hn IH] using pretty_N_go_ind; intros s.
  - by rewrite pretty_N_go_0.
  - rewrite pretty_N_go_step, IH, has_char_cons by done.
    by rewrite eqb_digit by (done || by apply N.mod_lt).
Qed.

Lemma has_char_pretty_Z (x : ascii) (z : Z) :
  Json.is_digit x = false → Ascii.eqb "-" x = false →
  Py.has_char x (pretty z) = false.
Proof.
  intros Hx Hminus. destruct z as [|p|p].
  - change (pretty 0%Z) with (String (pretty_N_char 0) "").
    by rewrite has_char_cons, eqb_digit.
  - change (pretty (Z.pos p)) with (pretty_N_go (N.pos p) "").
    by rewrite has_char_pretty_N_go.
  - change (pretty (Z.neg p)) with (String "-" (pretty_N_go (N.pos p) "")).
    by rewrite has_char_cons, Hminus, has_char_pretty_N_go.
Qed.

Lemma has_char_elements (x : ascii) (zs : list Z) :
  Json.is_digit x = false →
  Py.has_char x "-, " = false →
  Py.has_char x (String.concat ", " (pretty <$> zs)) = false.
Proof.
  intros Hx Hsep.
  assert (Hminus : Ascii.eqb "-" x = false).
  { rewrite has_char_cons in Hsep. by apply orb_false_iff in Hsep as [? _]. }
  assert (Hcomma : Py.has_char x ", " = false).
  { rewrite has_char_cons in Hsep. by apply orb_false_iff in Hsep as [_ ?]. }
  induction zs as [|z zs IH]; [done|].
  destruct zs as [|z' zs].
  - by apply has_char_pretty_Z.
  - rewrite !fmap_cons, concat_cons2, !has_char_app.
    rewrite has_char_pretty_Z, Hcomma by done.
    rewrite <- fmap_cons. by rewrite IH.
Qed.

Lemma has_char_dumps_integers (x : ascii) (zs : list Z) :
  Json.is_digit x = false →
  Py.has_char x "-, []" = false →
  Py.has_char x (Json.dumps (Json.Arr (Json.Num <$> zs))) = false.
Proof.
  intros Hx Hsep.
  assert (Hsep' : Py.has_char x "-, " = false
                  ∧ Ascii.eqb "[" x = false ∧ Ascii.eqb "]" x = false).
  { rewrite !has_char_cons in Hsep. rewrite !has_char_cons.
    repeat (apply orb_false_iff in Hsep as [? Hsep]).
    by repeat (split || apply orb_false_iff). }
  destruct Hsep' as (Helems & Hopen & Hclose).
  unfold Json.dumps.
  rewrite <- list_fmap_compose.
  change (Json.dumps_atom ∘ Json.Num) with (pretty : Z → string).
  rewrite !has_char_app, has_char_elements by done.
  by rewrite !has_char_cons, Hopen, Hclose.
Qed.

Lemma contains_has_char (c : ascii) (p s : string) :
  Py.has_char c s = false → Py.contains (String c p) s = false.
Proof.
  induction s as [|x s IH]; [done|].
  rewrite has_char_cons. intros [Hx Hs]%orb_false_iff.
  change (Py.contains (String c p) (String x s))
    with (String.prefix (String c p) (String x s)
          || Py.contains (String c p) s).
  rewrite str_prefix_cons, (IH Hs), orb_false_r.
  rewrite bool_decide_eq_false_2; [done|].
  intros ->. by rewrite Ascii.eqb_refl in Hx.
Qed.

Lemma strip_dumps_array (l : list Json.atom) :
  Py.strip (Json.dumps (Json.Arr l)) = Json.dumps (Json.Arr l).
Proof.
  unfold Json.dumps.
  set (body := String.concat ", " (Json.dumps_atom <$> l)).
  change (Py.strip ("[" +:+ body +:+ "]"))
    with (Py.rstrip ("[" +:+ body +:+ "]")).
  rewrite <- !str_app_assoc. by rewrite rstrip_app.
Qed.

(** An array of integers is written and read back as it is. *)
Lemma integer_array_is_restored (thispv : channel Json.t) (pvname : string)
    (previous : option string) (zs : list Z) :
  Py.no_space pvname = true →
  (1 < count thispv)%Z →
  type thispv ≠ "char" →
  get_tolist thispv = Json.Arr (Json.Num <$> zs) →
  ∃ text,
    encode_value Json.dumps thispv previous = Some text
    ∧ Py.readlines (save_line (pvname, text)) = [save_line (pvname, text)]
    ∧ read_line Json.loads (save_line (pvname, text))
      = Return (pvname, Json (Json.Arr (Json.Num <$> zs))).
Proof.
  intros Hname Hcount Htype Hlist. rewrite <- Hlist.
  apply array_is_restored; try done; rewrite Hlist.
  - apply loads_dumps_integers.
  - apply str_prefix_app.
  - apply strip_dumps_array.
  - apply contains_has_char. by apply has_char_dumps_integers.
  - by apply has_char_dumps_integers.
Qed.

(** * Further properties *)

(** ** More on restoring *)

Section RestoreMore.

Context {J : Type}.
Variable json_loads : string → option J.
Variable str_of : J → string.
Variable PV : string → channel J.

(** X1.  The loop ends at the first line that starts with [<END]: what
    follows that line plays no part, and a file without such a line is read
    to its end like the same file with the line added. *)
Theorem restore_stops_at_end_mark (debug : bool) (pre : list string)
    (line : string) (post : list string) (success : bool) :
  Py.startswith "<END" line = true →
  restore_lines json_loads str_of PV debug (pre ++ line :: post) success
  = restore_lines json_loads str_of PV debug pre success.
Proof.
  intros Hend. revert success.
  induction pre as [|l pre IH]; intros success.
  - simpl. by rewrite Hend.
  - rewrite <- app_comm_cons, !restore_lines_cons.
    destruct (Py.startswith "<END" l); [done|].
    destruct (Py.startswith "#" l); [apply IH|].
    destruct (read_line json_loads l) as [[pvname value]|e]; [|done].
    destruct (restore_one str_of PV debug pvname value) as [evs [kept|e]];
      [|done].
    by rewrite IH.
Qed.

Lemma comment_is_no_end_mark (line : string) :
  Py.startswith "#" line = true → Py.startswith "<END" line = false.
Proof.
  intros [s ->]%startswith_char. unfold Py.startswith.
  rewrite str_prefix_cons. by rewrite bool_decide_eq_false_2.
Qed.

(** X2.  A line that starts with [#] is passed over wherever it stands:
    the restore of a file is the restore of the file without that line. *)
Theorem restore_skips_comments (debug : bool) (pre : list string)
    (line : string) (post : list string) (success : bool) :
  Py.startswith "#" line = true →
  restore_lines json_loads str_of PV debug (pre ++ line :: post) success
  = restore_lines json_loads str_of PV debug (pre ++ post) success.
Proof.
  intros Hhash. revert success.
  induction pre as [|l pre IH]; intros success.
  - simpl app. rewrite restore_lines_cons.
    by rewrite (comment_is_no_end_mark line Hhash), Hhash.
  - rewrite <- !app_comm_cons, !restore_lines_cons.
    destruct (Py.startswith "<END" l); [done|].
    destruct (Py.startswith "#" l); [apply IH|].
    destruct (read_line json_loads l) as [[pvname value]|e]; [|done].
    destruct (restore_one str_of PV debug pvname value) as [evs [kept|e]];
      [|done].
    by rewrite IH.
Qed.

Lemma format_setting (pvname value : string) :
  Py.format "Setting %s to %s..." [pvname; value]
  = Some ("Setting " +:+ pvname +:+ " to " +:+ value +:+ "...").
Proof. reflexivity. Qed.

Lemma try_put_puts (pvname : string) (value : put_arg J) :
  puts_of (try_put PV pvname value).1
  = if can_put (PV pvname) then [(pvname, value)] else [].
Proof.
  unfold try_put, can_put.
  destruct (raises (PV pvname)); [done|].
  destruct (connected (PV pvname)); [|by destruct (put_raises (PV pvname))].
  destruct (write_access (PV pvname));
    by destruct (put_raises (PV pvname)).
Qed.

Lemma puts_of_app (e1 e2 : list (event J)) :
  puts_of (e1 ++ e2) = puts_of e1 ++ puts_of e2.
Proof. unfold puts_of. apply omap_app. Qed.

(** The puts of one line: the value of the line, on a channel that takes
    it, and nothing otherwise; the debug flag adds no put. *)
Lemma restore_one_puts (debug : bool) (pvname : string) (value : put_arg J) :
  puts_of (restore_one str_of PV debug pvname value).1
  = if can_put (PV pvname) then [(pvname, value)] else [].
Proof.
  unfold restore_one. pose proof (try_put_puts pvname value) as Hput.
  destruct debug.
  - rewrite format_setting.
    destruct (try_put PV pvname value) as [evs [[exctype excvalue]|]];
      [rewrite format_error_restoring|];
      simpl in Hput |- *; by rewrite (right_id_L [] (++)).
  - destruct (try_put PV pvname value) as [evs [[exctype excvalue]|]];
      [rewrite format_error_restoring|];
      simpl in Hput |- *; by rewrite (right_id_L [] (++)).
Qed.



(** X4.  A value is put only on a channel whose [PV] and [connect] did
    not raise, that is connected and that may be written. *)
Theorem restore_puts_only_where_it_can (debug : bool) (lines : list string)
    (success : bool) (pvname : string) (value : put_arg J) :
  (pvname, value)
    ∈ puts_of (restore_lines json_loads str_of PV debug lines success).1 →
  raises (PV pvname) = None
  ∧ connected (PV pvname) = true
  ∧ write_access (PV pvname) = true.
Proof.
  revert success. induction lines as [|line lines IH]; intros success.
  - simpl. by intros ?%elem_of_nil.
  - rewrite restore_lines_cons.
    destruct (Py.startswith "<END" line); [by intros ?%elem_of_nil|].
    destruct (Py.startswith "#" line); [apply IH|].
    destruct (read_line json_loads line) as [[name v]|e];
      [|by intros ?%elem_of_nil].
    pose proof (restore_one_puts debug name v) as Hp.
    destruct (restore_one str_of PV debug name v) as [evs [kept|e]];
      simpl in Hp |- *.
    + rewrite puts_of_app, Hp. intros [Hin|Hin]%elem_of_app; [|by eapply IH].
      unfold can_put in Hin.
      destruct (raises (PV name)) eqn:Hr, (put_raises (PV name)),
        (connected (PV name)) eqn:Hc, (write_access (PV name)) eqn:Hw;
        simpl in Hin; try (by apply elem_of_nil in Hin);
        apply list_elem_of_singleton in Hin; by simplify_eq.
    + rewrite Hp. intros Hin. unfold can_put in Hin.
      destruct (raises (PV name)) eqn:Hr, (put_raises (PV name)),
        (connected (PV name)) eqn:Hc, (write_access (PV name)) eqn:Hw;
        simpl in Hin; try (by apply elem_of_nil in Hin);
        apply list_elem_of_singleton in Hin; by simplify_eq.
Qed.

(** X5.  When [PV] or [connect] raises for the name of a line, the
    handler of [except] raises TypeError in its turn: the restore ends
    there, with nothing put for that line and no line after it read. *)
Theorem restore_aborts_when_a_channel_raises (debug : bool) (line : string)
    (post : list string) (success : bool) (pvname : string)
    (value : put_arg J) (exc : string * string) :
  Py.startswith "<END" line = false →
  Py.startswith "#" line = false →
  read_line json_loads line = Return (pvname, value) →
  raises (PV pvname) = Some exc →
  (restore_lines json_loads str_of PV debug (line :: post) success).2
  = Raise TypeError
  ∧ puts_of (restore_lines json_loads str_of PV debug (line :: post) success).1
    = [].
Proof.
  intros Hend Hhash Hread Hraises.
  rewrite restore_lines_cons, Hend, Hhash, Hread.
  unfold restore_one, try_put. rewrite Hraises. destruct exc as [t v].
  rewrite format_error_restoring.
  destruct debug; [by rewrite format_setting|done].
Qed.

End RestoreMore.

Lemma restore_stops_at_end_mark_witness :
  restore_lines Json.loads Json.str_of Example.everything false
    (["PV1 1" +:+ nl] ++ ("<END>" +:+ nl) :: ["PV2 2" +:+ nl]) true
  = restore_lines Json.loads Json.str_of Example.everything false
      ["PV1 1" +:+ nl] true.
Proof.
  apply (restore_stops_at_end_mark Json.loads Json.str_of Example.everything
           false ["PV1 1" +:+ nl] ("<END>" +:+ nl) ["PV2 2" +:+ nl] true).
  reflexivity.
Defined.

Lemma restore_skips_comments_witness :
  restore_lines Json.loads Json.str_of Example.everything false
    (["PV1 1" +:+ nl] ++ ("# a note" +:+ nl) :: ["PV2 2" +:+ nl]) true
  = restore_lines Json.loads Json.str_of Example.everything false
      (["PV1 1" +:+ nl] ++ ["PV2 2" +:+ nl]) true.
Proof.
  apply (restore_skips_comments Json.loads Json.str_of Example.everything
           false ["PV1 1" +:+ nl] ("# a note" +:+ nl) ["PV2 2" +:+ nl] true).
  reflexivity.
Defined.

Lemma restore_puts_only_where_it_can_witness :
  raises (Sample.ioc "PV1") = None
  ∧ connected (Sample.ioc "PV1") = true
  ∧ write_access (Sample.ioc "PV1") = true.
Proof.
  apply (restore_puts_only_where_it_can Json.loads Json.str_of Sample.ioc
           false ["RO 2" +:+ nl; "PV1 1" +:+ nl; "GONE 3" +:+ nl] true
           "PV1" (Text "1")).
  vm_compute. apply list_elem_of_singleton. reflexivity.
Defined.

Lemma restore_aborts_when_a_channel_raises_witness :
  (restore_lines Json.loads Json.str_of Sample.ioc false
     (("BAD 1" +:+ nl) :: ["PV1 1" +:+ nl]) true).2 = Raise TypeError
  ∧ puts_of (restore_lines Json.loads Json.str_of Sample.ioc false
               (("BAD 1" +:+ nl) :: ["PV1 1" +:+ nl]) true).1 = [].
Proof.
  apply (restore_aborts_when_a_channel_raises Json.loads Json.str_of
           Sample.ioc false ("BAD 1" +:+ nl) ["PV1 1" +:+ nl] true
           "BAD" (Text "1")
           ("<class 'epics.ca.ChannelAccessException'>", "timeout"));
    reflexivity.
Defined.

Lemma can_put_spec {J} (c : channel J) :
  can_put c = true →
  raises c = None ∧ connected c = true ∧ write_access c = true
  ∧ put_raises c = None.
Proof.
  unfold can_put.
  destruct (raises c), (put_raises c), (connected c), (write_access c);
    by intros.
Qed.

Lemma concat_cons (x : string) (l : list string) :
  Py.concat (x :: l) = x +:+ Py.concat l.
Proof. reflexivity. Qed.

(** The lines of the text of [writelines], read back. *)
Lemma readlines_go_saved (pv_vals : list (string * string)) (rest : string) :
  Forall (λ nv, Py.has_char "010" nv.1 = false
                ∧ Py.has_char "010" nv.2 = false) pv_vals →
  Py.readlines_go "" (Py.concat (save_line <$> pv_vals) +:+ rest)
  = (save_line <$> pv_vals) ++ Py.readlines_go "" rest.
Proof.
  induction 1 as [|[n v] pv_vals [Hn Hv] _ IH]; [done|].
  simpl in Hn, Hv. rewrite fmap_cons, concat_cons. unfold save_line at 1. simpl fst. simpl snd.
  replace (((n +:+ " " +:+ v +:+ nl) +:+ Py.concat (save_line <$> pv_vals))
           +:+ rest)
    with ((n +:+ " " +:+ v) +:+ nl
          +:+ (Py.concat (save_line <$> pv_vals) +:+ rest))
    by (by rewrite !str_app_assoc).
  rewrite readlines_go_line by (by rewrite !has_char_app, Hn, Hv).
  rewrite IH. simpl String.rev_app. unfold save_line at 2. simpl fst. simpl snd.
  by rewrite !str_app_assoc.
Qed.

Section Whole.

Context {J : Type}.
Variable json_loads : string → option J.
Variable str_of : J → string.
Variable PV : string → channel J.

Lemma restore_lines_saved (pv_vals : list (string * string))
    (vals : list (put_arg J)) (tail : list string) (success : bool) :
  Forall2 (restorable json_loads PV) pv_vals vals →
  restore_lines json_loads str_of PV false
    ((save_line <$> pv_vals) ++ tail) success
  = emit (zip_with (λ nv v, Put nv.1 v) pv_vals vals)
      (restore_lines json_loads str_of PV false tail success).
Proof.
  intros H. revert success.
  induction H as [|[n t] v pv_vals vals (Hn & Hhash & Hend & Hnl & Hdec & Hput) _ IH];
    intros success.
  - simpl. by rewrite emit_nil.
  - simpl in Hn, Hhash, Hend, Hnl, Hdec, Hput.
    apply can_put_spec in Hput as (Hr & Hc & Hw & Hp).
    rewrite fmap_cons, <- app_comm_cons, restore_lines_cons.
    change (save_line (n, t)) with (n +:+ String " " (t +:+ String "010" "")).
    unfold Py.startswith in *.
    rewrite !(str_prefix_sep _ n) by reflexivity.
    rewrite Hend, Hhash. unfold read_line.
    change (String " " (t +:+ String "010" ""))
      with (" " +:+ t +:+ String "010" "").
    rewrite split_line_name_value by done. rewrite Hdec.
    unfold restore_one. rewrite try_put_writable by done.
    unfold emit at 1 2. simpl. rewrite IH. unfold emit. simpl. done.
Qed.

End Whole.

(** X6.  What [save_pvs] writes, [restore_pvs] reads back: for a save
    text made of pairs whose names have no white space and start neither
    with [#] nor with [<END], whose values hold no newline and decode, once
    stripped, to the values [vals], and whose channels take a put, the
    restore skips the two lines of the header, puts the values in the order
    of the pairs, stops at [<END>] and returns True. *)
Theorem saved_file_is_restored :
  ∀ (J : Type) (json_loads : string → option J) (str_of : J → string)
    (PV : string → channel J) (read_file : string → option string)
    (now filepath : string) (pv_vals : list (string * string))
    (vals : list (put_arg J)),
    read_file filepath = Some (save_text now pv_vals) →
    Py.has_char "010" now = false →
    Forall2 (restorable json_loads PV) pv_vals vals →
    restore_pvs json_loads str_of PV read_file filepath false
    = (zip_with (λ nv v, Put nv.1 v) pv_vals vals, Return true).
Proof.
  intros J json_loads str_of PV read_file now filepath pv_vals vals
    Hfile Hnow Hvals.
  assert (Hlines :
            Py.readlines (save_text now pv_vals)
            = ("# File saved by pyepics autosave.save_pvs() on " +:+ now +:+ nl)
                :: ("# Edit with extreme care." +:+ nl)
                :: (save_line <$> pv_vals) ++ ["<END>" +:+ nl]).
  { unfold Py.readlines, save_text.
    set (h1 := "# File saved by pyepics autosave.save_pvs() on ").
    set (h2 := "# Edit with extreme care.").
    replace ((h1 +:+ now +:+ nl)
             +:+ (h2 +:+ nl)
             +:+ Py.concat (save_line <$> pv_vals) +:+ "<END>" +:+ nl)
      with ((h1 +:+ now) +:+ nl
            +:+ (h2 +:+ nl
                 +:+ (Py.concat (save_line <$> pv_vals) +:+ "<END>" +:+ nl)))
      by (by rewrite !str_app_assoc).
    rewrite readlines_go_line by (by rewrite has_char_app, Hnow).
    rewrite readlines_go_line by done.
    rewrite readlines_go_saved.
    - simpl String.rev_app. by rewrite <- !str_app_assoc.
    - apply Forall_forall. intros nv Hnv.
      destruct (proj1 (list_elem_of_lookup _ _) Hnv) as [i Hi].
      destruct (Forall2_lookup_l _ _ _ _ _ Hvals Hi)
        as (v & _ & Hn & _ & _ & Hnl & _).
      split; [|done]. by apply is_space_has_char. }
  unfold restore_pvs. rewrite Hfile, Hlines.
  rewrite restore_lines_cons.
  change (Py.startswith "<END"
            ("# File saved by pyepics autosave.save_pvs() on " +:+ now +:+ nl))
    with false.
  change (Py.startswith "#"
            ("# File saved by pyepics autosave.save_pvs() on " +:+ now +:+ nl))
    with true.
  cbv iota. rewrite restore_lines_cons.
  change (Py.startswith "<END" ("# Edit with extreme care." +:+ nl))
    with false.
  change (Py.startswith "#" ("# Edit with extreme care." +:+ nl)) with true.
  cbv iota. rewrite (restore_lines_saved json_loads str_of PV _ vals) by done.
  change (restore_lines json_loads str_of PV false ["<END>" +:+ nl] true)
    with (@nil (event J), @Return bool true).
  unfold emit. simpl. by rewrite (right_id_L [] (++)).
Qed.

Lemma saved_file_is_restored_witness :
  restore_pvs Json.loads Json.str_of Example.everything
    (Example.one_file "pvs.sav"
       (save_text "2011-06-01T12:00:00"
          [("PV1", "1.5"); ("WAVE", "@array@ [1, 2, 3]")]))
    "pvs.sav" false
  = ([Put "PV1" (Text "1.5");
      Put "WAVE" (Json (Json.Arr [Json.Num 1; Json.Num 2; Json.Num 3]))],
     Return true).
Proof.
  apply (saved_file_is_restored Json.t Json.loads Json.str_of
           Example.everything
           (Example.one_file "pvs.sav"
              (save_text "2011-06-01T12:00:00"
                 [("PV1", "1.5"); ("WAVE", "@array@ [1, 2, 3]")]))
           "2011-06-01T12:00:00" "pvs.sav"
           [("PV1", "1.5"); ("WAVE", "@array@ [1, 2, 3]")]
           [Text "1.5";
            Json (Json.Arr [Json.Num 1; Json.Num 2; Json.Num 3])]).
  - reflexivity.
  - reflexivity.
  - repeat constructor.
Defined.

(** X7.  One pair of braces around the payload of an array is dropped:
    [@array@ {body}] hands [body] itself to [json.loads], whatever [body]
    is, as long as it holds no [@]. *)
Theorem array_braces_are_dropped :
  ∀ (J : Type) (json_loads : string → option J) (body : string),
    Py.has_char "@" body = false →
    decode_value json_loads ("@array@ {" +:+ body +:+ "}")
    = match json_loads body with
      | Some j => Return (Json j)
      | None => Raise ValueError
      end.
Proof.
  intros J json_loads body Hbody. unfold decode_value.
  change (Py.startswith "<JSON>:" ("@array@ {" +:+ body +:+ "}")) with false.
  change (Py.startswith "@array@" ("@array@ {" +:+ body +:+ "}")) with true.
  cbv iota.
  change ("@array@ {" +:+ body +:+ "}")
    with ("@array@ " +:+ (String "{" body +:+ "}")).
  rewrite replace_array_mark
    by (apply contains_has_char; by rewrite has_char_app, has_char_cons, Hbody).
  assert (Hstrip : Py.strip (String " " (String "{" body +:+ "}"))
                   = String "{" body +:+ "}").
  { change (Py.strip (String " " (String "{" body +:+ "}")))
      with (Py.rstrip (String "{" body +:+ "}")).
    by rewrite rstrip_app. }
  rewrite Hstrip.
  assert (Hend : Py.endswith "}" (String "{" body +:+ "}") = true).
  { unfold Py.endswith. rewrite rev_snoc.
    change (String.rev "}") with (String "}" "").
    by rewrite str_prefix_cons, str_prefix_nil, bool_decide_eq_true_2. }
  assert (Hopen : Py.startswith "{" (String "{" body +:+ "}") = true).
  { unfold Py.startswith.
    change (String "{" body +:+ "}") with (String "{" (body +:+ "}")).
    by rewrite str_prefix_cons, str_prefix_nil, bool_decide_eq_true_2. }
  rewrite Hend, Hopen. simpl andb. cbv iota.
  change (Py.slice_1_m1 (String "{" body +:+ "}"))
    with (Py.drop_last (body +:+ String "}" "")).
  by rewrite drop_last_snoc.
Qed.

Lemma array_braces_are_dropped_witness :
  decode_value Json.loads "@array@ {[1, 2, 3]}"
  = Return (Json (Json.Arr [Json.Num 1; Json.Num 2; Json.Num 3])).
Proof.
  apply (array_braces_are_dropped Json.t Json.loads "[1, 2, 3]").
  reflexivity.
Defined.

(** ** More on saving *)

Section SaveMore.

Context {J : Type}.
Variable json_dumps : J → string.
Variable PV : string → channel J.

Lemma encode_value_hollow (thispv : channel J) (value : option string) :
  (count thispv < 1)%Z → encode_value json_dumps thispv value = value.
Proof.
  intros Hcount. unfold encode_value.
  replace (count thispv =? 1)%Z with false by (symmetry; lia).
  replace (1 <? count thispv)%Z with false by (symmetry; lia).
  done.
Qed.

Lemma save_loop_unconnected (pre rest : list string) (value : option string)
    (pv_vals : list (string * string)) :
  (∀ pvn, pvn ∈ pre → connected (PV pvn) = false) →
  save_loop json_dumps PV (pre ++ rest) value pv_vals
  = emit ((λ pvn, Print ("Cannot connect to " +:+ pvn)) <$> pre)
      (save_loop json_dumps PV rest value pv_vals).
Proof.
  induction pre as [|pvn pre IH]; intros Hpre.
  - simpl. by rewrite emit_nil.
  - rewrite <- app_comm_cons, save_loop_cons.
    rewrite (Hpre pvn) by left. cbv beta iota delta [negb].
    rewrite format_cannot_connect, IH by (intros n Hn; apply Hpre; by right).
    by rewrite emit_emit.
Qed.

End SaveMore.

(** X8.  When the first channel that connects has a count below one,
    none of the branches of lines 96-101 binds [value]: [save_pvs] raises
    UnboundLocalError after the diagnostics of the names before it, and
    writes no file. *)
Theorem save_pvs_fails_on_leading_empty_channel :
  ∀ (J : Type) (json_dumps : J → string) (PV : string → channel J)
    (now : string) (parseFile : string → result (list group))
    (items : gmap string string → list (string * string))
    (fuel : nat) (request_file save_file : string) (debug : bool)
    (h h' : list (gmap string string)) (pre post : list string)
    (pvname : string),
    _parse_request_file parseFile items fuel request_file
      default_macro_values h = (h', Return (pre ++ pvname :: post)) →
    (∀ pvn, pvn ∈ pre ++ pvname :: post → raises (PV pvn) = None) →
    (∀ pvn, pvn ∈ pre → connected (PV pvn) = false) →
    connected (PV pvname) = true →
    (count (PV pvname) < 1)%Z →
    save_pvs json_dumps PV now parseFile items fuel request_file save_file
      debug h
    = (h', ((λ pvn, Print ("Cannot connect to " +:+ pvn)) <$> pre,
            Raise UnboundLocalError)).
Proof.
  intros J json_dumps PV now parseFile items fuel request_file save_file
    debug h h' pre post pvname Hparse Hraises Hpre Hconn Hcount.
  unfold save_pvs. rewrite Hparse.
  assert (Hfind : list_find (λ pvn, is_Some (raises (PV pvn)))
                    (pre ++ pvname :: post) = None).
  { apply list_find_None, Forall_forall. intros pvn Hpvn.
    rewrite (Hraises pvn Hpvn). by intros [? ?]. }
  rewrite Hfind, save_loop_unconnected by done.
  rewrite save_loop_cons, Hconn. cbv beta iota delta [negb].
  rewrite encode_value_hollow by done.
  unfold emit. simpl. by rewrite (right_id_L [] (++)).
Qed.

Lemma save_pvs_fails_on_leading_empty_channel_witness :
  save_pvs Json.dumps Sample.ioc "2011-06-01T12:00:00"
    (λ _, Return [PVName "GONE"; PVName "EMPTY"; PVName "PV1"])
    map_to_list 1 "x.req" "x.sav" false initial_store
  = (initial_store, ([Print "Cannot connect to GONE"], Raise UnboundLocalError)).
Proof.
  apply (save_pvs_fails_on_leading_empty_channel Json.t Json.dumps Sample.ioc
           "2011-06-01T12:00:00"
           (λ _, Return [PVName "GONE"; PVName "EMPTY"; PVName "PV1"])
           map_to_list 1 "x.req" "x.sav" false initial_store initial_store
           ["GONE"] ["PV1"] "EMPTY").
  - reflexivity.
  - intros pvn Hpvn.
    repeat (apply elem_of_cons in Hpvn as [->|Hpvn]; [reflexivity|]).
    by apply elem_of_nil in Hpvn.
  - intros pvn Hpvn. apply list_elem_of_singleton in Hpvn as ->. reflexivity.
  - reflexivity.
  - reflexivity.
Defined.



(** ** More on the request file *)

Section RequestMore.

Variable parseFile : string → result (list group).
Variable items : gmap string string → list (string * string).

(** The names before the first include are gathered without a change of
    the store. *)
Lemma walk_names_first recurse request_file (macro_values : nat)
    (pre rest : list group) (result : list string)
    (h : list (gmap string string)) :
  (∀ g, g ∈ pre → is_include g = false) →
  walk items recurse request_file macro_values
    (filter (λ x, 0 < group_len x) (pre ++ rest)) result h
  = walk items recurse request_file macro_values
      (filter (λ x, 0 < group_len x) rest)
      (result ++ (expand_macros (items (h !!! macro_values))
                    <$> pv_names pre)) h.
Proof.
  revert result. induction pre as [|g pre IH]; intros result Hpre.
  - simpl. by rewrite (right_id_L [] (++)).
  - assert (Hg : is_include g = false) by (apply Hpre; left).
    assert (Hpre' : ∀ g', g' ∈ pre → is_include g' = false)
      by (intros g' Hg'; apply Hpre; by right).
    rewrite <- app_comm_cons, filter_names_cons.
    destruct g as [|name|subfile macros]; [| |done].
    + by apply IH.
    + simpl. unfold bind, dict_items. rewrite IH by done.
      by rewrite <- (assoc_L (++)).
Qed.

(** What the call gives when the first include of the file gives [r]. *)
Lemma parse_first_include (fuel : nat) (request_file : string)
    (macro_values : nat) (h : list (gmap string string))
    (pre post : list group) (subfile : string)
    (macros : list (string * string)) (e : exn) :
  parseFile request_file = Return (pre ++ FileInclude subfile macros :: post) →
  (∀ g, g ∈ pre → is_include g = false) →
  (_parse_request_file parseFile items fuel
     (include_path request_file subfile) (length h)
     (h ++ [dict_of_pairs macros ∪ (h !!! macro_values)])).2 = Raise e →
  (_parse_request_file parseFile items (S fuel) request_file macro_values
     h).2 = Raise e.
Proof.
  intros Hfile Hpre Hsub. simpl. rewrite Hfile.
  rewrite walk_names_first by done.
  rewrite filter_names_cons, walk_include. unfold bind.
  destruct (_parse_request_file parseFile items fuel _ _ _) as [h' [names|e']];
    simpl in Hsub; [done|]. by simplify_eq.
Qed.

End RequestMore.

(** X10.  A request file whose first include is the file itself never
    gives a list: whatever depth the recursion is allowed, the call ends at
    the recursion limit. *)
Theorem self_include_never_returns :
  ∀ (parseFile : string → result (list group))
    (items : gmap string string → list (string * string))
    (request_file : string) (pre post : list group) (subfile : string)
    (macros : list (string * string)),
    parseFile request_file
    = Return (pre ++ FileInclude subfile macros :: post) →
    (∀ g, g ∈ pre → is_include g = false) →
    include_path request_file subfile = request_file →
    ∀ fuel (macro_values : nat) (h : list (gmap string string)),
      (_parse_request_file parseFile items fuel request_file macro_values
         h).2 = Raise RuntimeError.
Proof.
  intros parseFile items request_file pre post subfile macros
    Hfile Hpre Hpath fuel.
  induction fuel as [|fuel IH]; intros macro_values h.
  - done.
  - apply (parse_first_include parseFile items fuel request_file
             macro_values h pre post subfile macros); [done..|].
    rewrite Hpath. apply IH.
Qed.

Lemma self_include_never_returns_witness :
  (_parse_request_file Sample.requests map_to_list 50 "loop.req"
     default_macro_values initial_store).2 = Raise RuntimeError.
Proof.
  apply (self_include_never_returns Sample.requests map_to_list "loop.req"
           [PVName "PV1"] [PVName "PV2"] "loop.req" []).
  - reflexivity.
  - intros g Hg. apply list_elem_of_singleton in Hg as ->. reflexivity.
  - reflexivity.
Defined.

(** X11.  When the file of an include cannot be read or parsed, the
    exception ends the whole call: the names gathered before the include
    are not returned. *)
Theorem unreadable_include_fails_the_parse :
  ∀ (parseFile : string → result (list group))
    (items : gmap string string → list (string * string))
    (request_file : string) (pre post : list group) (subfile : string)
    (macros : list (string * string)) (e : exn),
    parseFile request_file
    = Return (pre ++ FileInclude subfile macros :: post) →
    (∀ g, g ∈ pre → is_include g = false) →
    parseFile (include_path request_file subfile) = Raise e →
    ∀ fuel (macro_values : nat) (h : list (gmap string string)),
      (_parse_request_file parseFile items (S (S fuel)) request_file
         macro_values h).2 = Raise e.
Proof.
  intros parseFile items request_file pre post subfile macros e
    Hfile Hpre Hsub fuel macro_values h.
  apply (parse_first_include parseFile items (S fuel) request_file
           macro_values h pre post subfile macros); [done..|].
  simpl. by rewrite Hsub.
Qed.

Lemma unreadable_include_fails_the_parse_witness :
  (_parse_request_file Sample.requests map_to_list 2 "dangling.req"
     default_macro_values initial_store).2 = Raise IOError.
Proof.
  apply (unreadable_include_fails_the_parse Sample.requests map_to_list
           "dangling.req" [PVName "PV1"] [PVName "PV2"] "missing.req" []
           IOError).
  - reflexivity.
  - intros g Hg. apply list_elem_of_singleton in Hg as ->. reflexivity.
  - reflexivity.
Defined.

(** Names without a dollar. *)
Lemma replace_placeholder_plain (m v s : string) :
  Py.has_char "$" s = false → Py.replace (placeholder m) v s = s.
Proof.
  intros Hs.
  change (Py.replace (placeholder m) v s)
    with (Py.replace_go (String "$" (String "(" (m +:+ ")"))) v 0 s).
  rewrite <- (str_app_nil_r s) at 1.
  rewrite replace_go_lit by done. simpl. apply str_app_nil_r.
Qed.

Lemma expand_macros_plain (kvs : list (string * string)) (pvname : string) :
  Py.has_char "$" pvname = false → expand_macros kvs pvname = pvname.
Proof.
  intros Hs. induction kvs as [|[m v] kvs IH]; [done|].
  change (expand_macros ((m, v) :: kvs) pvname)
    with (expand_macros kvs (Py.replace (placeholder m) v pvname)).
  by rewrite replace_placeholder_plain.
Qed.

(** X12.  A request file without includes whose names hold no [$] gives
    those names as they are, whatever dictionary of macros it is called
    with; the store is left as it was. *)
Theorem names_without_dollar_are_kept :
  ∀ (parseFile : string → result (list group))
    (items : gmap string string → list (string * string))
    (fuel : nat) (request_file : string) (groups : list group)
    (macro_values : nat) (h : list (gmap string string)),
    parseFile request_file = Return groups →
    (∀ g, g ∈ groups → is_include g = false) →
    (∀ name, name ∈ pv_names groups → Py.has_char "$" name = false) →
    _parse_request_file parseFile items (S fuel) request_file macro_values h
    = (h, Return (pv_names groups)).
Proof.
  intros parseFile items fuel request_file groups macro_values h
    Hfile Hgroups Hnames.
  simpl. rewrite Hfile, walk_no_include by done. simpl.
  f_equal. f_equal.
  induction (pv_names groups) as [|n ns IH]; [done|].
  rewrite fmap_cons, expand_macros_plain by (apply Hnames; left).
  f_equal. apply IH. intros name Hname. apply Hnames. by right.
Qed.

Lemma names_without_dollar_are_kept_witness :
  _parse_request_file Example.requests map_to_list 1 "plain.req" 1
    [∅; <["P" := "XF:"]> ∅]
  = ([∅; <["P" := "XF:"]> ∅], Return ["PV1"; "WAVE"; "PV3"]).
Proof.
  apply (names_without_dollar_are_kept Example.requests map_to_list 0
           "plain.req"
           [Suppressed; PVName "PV1"; PVName "WAVE"; Suppressed; PVName "PV3"]
           1 [∅; <["P" := "XF:"]> ∅]).
  - reflexivity.
  - intros g Hg. repeat (apply elem_of_cons in Hg as [->|Hg]; [done|]).
    by apply elem_of_nil in Hg.
  - intros name Hname.
    repeat (apply elem_of_cons in Hname as [->|Hname]; [done|]).
    by apply elem_of_nil in Hname.
Defined.

(** X13.  An include whose path starts with [/], or one in a request file
    whose own path has no directory part, is read at its own normalised
    path: nothing is put in front of it. *)
Theorem include_path_without_directory :
  ∀ (request_file subfile : string),
    Py.startswith "/" subfile = true ∨ Py.has_char "/" request_file = false →
    include_path request_file subfile = Posixpath.normpath subfile.
Proof.
  intros request_file subfile [Habs|Hdir]; unfold include_path.
  - unfold Posixpath.join. by rewrite Habs.
  - unfold Posixpath.dirname. rewrite head_of_no_slash by done.
    unfold Posixpath.join. simpl. by destruct (Py.startswith "/" subfile).
Qed.

Lemma include_path_without_directory_witness :
  include_path "a/b/req.req" "/etc/x.req" = Posixpath.normpath "/etc/x.req"
  ∧ include_path "req.req" "sub/../x.req" = Posixpath.normpath "sub/../x.req".
Proof.
  split.
  - apply (include_path_without_directory "a/b/req.req" "/etc/x.req").
    left. reflexivity.
  - apply (include_path_without_directory "req.req" "sub/../x.req").
    right. reflexivity.
Defined.

(** ** The alphabet of the resolved names *)

Lemma all_in_app (chars a b : string) :
  Grammar.all_in chars (a +:+ b)
  = Grammar.all_in chars a && Grammar.all_in chars b.
Proof.
  induction a as [|c a IH]; [done|]. simpl. by rewrite IH, andb_assoc.
Qed.

Lemma all_in_replace_go (chars old new : string) (skip : nat) (s : string) :
  Grammar.all_in chars new = true →
  Grammar.all_in chars s = true →
  Grammar.all_in chars (Py.replace_go old new skip s) = true.
Proof.
  intros Hnew. revert skip. induction s as [|c s IH]; intros skip Hs; [done|].
  simpl in Hs. apply andb_true_iff in Hs as [Hc Hs].
  destruct skip as [|k].
  - rewrite replace_go_unfold. destruct (String.prefix old (String c s)).
    + rewrite all_in_app, Hnew. by apply IH.
    + simpl. rewrite Hc. by apply IH.
  - simpl. by apply IH.
Qed.

Lemma word_replace (chars m v s : string) :
  Grammar.word chars v = true →
  Grammar.word chars s = true →
  Grammar.word chars (Py.replace (placeholder m) v s) = true.
Proof.
  unfold Grammar.word.
  intros [Hv1 Hv2]%andb_true_iff [Hs1 Hs2]%andb_true_iff.
  change (Py.replace (placeholder m) v s)
    with (Py.replace_go (placeholder m) v 0 s).
  rewrite all_in_replace_go, andb_true_r by done.
  destruct s as [|c s]; [done|]. rewrite replace_go_unfold.
  destruct (String.prefix (placeholder m) (String c s)); [|done].
  by destruct v.
Qed.

Lemma word_expand (chars : string) (kvs : list (string * string))
    (pvname : string) :
  Forall (λ kv, Grammar.word chars kv.2 = true) kvs →
  Grammar.word chars pvname = true →
  Grammar.word chars (expand_macros kvs pvname) = true.
Proof.
  intros Hkvs. revert pvname.
  induction Hkvs as [|[m v] kvs Hv _ IH]; intros pvname Hname; [done|].
  change (expand_macros ((m, v) :: kvs) pvname)
    with (expand_macros kvs (Py.replace (placeholder m) v pvname)).
  apply IH. by apply word_replace.
Qed.

Lemma scope_ok_dict_of_pairs (macros : list (string * string)) :
  forallb Grammar.macro macros = true → scope_ok (dict_of_pairs macros).
Proof.
  intros Hm. rewrite dict_of_pairs_last_wins.
  intros k v Hkv. apply elem_of_list_to_map_2 in Hkv.
  rewrite elem_of_reverse in Hkv. apply list_elem_of_In in Hkv.
  rewrite forallb_forall in Hm. specialize (Hm _ Hkv).
  unfold Grammar.macro in Hm. by apply andb_true_iff in Hm as [_ ?].
Qed.

Lemma scope_ok_union (d1 d2 : gmap string string) :
  scope_ok d1 → scope_ok d2 → scope_ok (d1 ∪ d2).
Proof.
  intros H1 H2 k v [?|[_ ?]]%lookup_union_Some_raw; [by eapply H1|by eapply H2].
Qed.

Lemma scope_ok_lookup_total (h : list (gmap string string)) (l : nat) :
  Forall scope_ok h → scope_ok (h !!! l).
Proof.
  intros Hh. rewrite list_lookup_total_alt.
  destruct (h !! l) as [d|] eqn:Hl; simpl.
  - eapply Forall_lookup_1; eauto.
  - intros k v Hkv. by rewrite lookup_empty in Hkv.
Qed.

Section Alphabet.

Variable parseFile : string → result (list group).
Variable items : gmap string string → list (string * string).
Hypothesis parsed : ∀ f groups,
  parseFile f = Return groups → forallb Grammar.req_group groups = true.
Hypothesis items_perm : ∀ d, items d ≡ₚ map_to_list d.

Lemma items_ok (d : gmap string string) :
  scope_ok d → Forall (λ kv, Grammar.word Grammar.pv_name_chars kv.2 = true)
                      (items d).
Proof.
  intros Hd. apply Forall_forall. intros [k v] Hkv.
  rewrite items_perm in Hkv. apply elem_of_map_to_list in Hkv.
  by apply (Hd k v).
Qed.

Lemma walk_alphabet (recurse : string → nat → M (list string))
    (request_file : string) (macro_values : nat) (ast : list group) :
  (∀ f mv h h' names,
      Forall scope_ok h → recurse f mv h = (h', Return names) →
      Forall scope_ok h' ∧ Forall (λ n, Grammar.pv_name n = true) names) →
  forallb Grammar.req_group ast = true →
  ∀ result h h' names,
    Forall scope_ok h →
    Forall (λ n, Grammar.pv_name n = true) result →
    walk items recurse request_file macro_values ast result h
    = (h', Return names) →
    Forall scope_ok h' ∧ Forall (λ n, Grammar.pv_name n = true) names.
Proof.
  intros Hrec. induction ast as [|g ast IH];
    intros Hast result h h' names Hh Hres Hwalk.
  - simpl in Hwalk. injection Hwalk as <- <-. by split.
  - simpl in Hast. apply andb_true_iff in Hast as [Hg Hast].
    destruct g as [|name|subfile macros].
    + done.
    + simpl in Hwalk. unfold bind, dict_items in Hwalk.
      eapply (IH Hast); [exact Hh| |exact Hwalk].
      apply Forall_app. split; [done|]. constructor; [|done].
      apply word_expand; [|done].
      apply items_ok. by apply scope_ok_lookup_total.
    + rewrite walk_include in Hwalk. unfold bind in Hwalk.
      simpl in Hg. apply andb_true_iff in Hg as [_ Hmacros].
      destruct (recurse _ _ _) as [h1 [sub|e]] eqn:Hsub; [|done].
      apply Hrec in Hsub as [Hh1 Hsubnames].
      * eapply (IH Hast); [exact Hh1| |exact Hwalk].
        apply Forall_app. by split.
      * apply Forall_app. split; [done|]. constructor; [|done].
        apply scope_ok_union; [by apply scope_ok_dict_of_pairs|].
        by apply scope_ok_lookup_total.
Qed.

Lemma parse_alphabet (fuel : nat) :
  ∀ f (mv : nat) (h h' : list (gmap string string)) names,
    Forall scope_ok h →
    _parse_request_file parseFile items fuel f mv h = (h', Return names) →
    Forall scope_ok h' ∧ Forall (λ n, Grammar.pv_name n = true) names.
Proof.
  induction fuel as [|fuel IH]; intros f mv h h' names Hh Hrun; [done|].
  simpl in Hrun. destruct (parseFile f) as [groups|e] eqn:Hf; [|done].
  eapply (walk_alphabet (_parse_request_file parseFile items fuel));
    [exact IH| |exact Hh|constructor|exact Hrun].
  apply parsed in Hf. rewrite forallb_forall in Hf |- *.
  intros g Hg. apply Hf.
  apply list_elem_of_In in Hg. apply list_elem_of_In.
  by apply list_elem_of_filter in Hg as [_ ?].
Qed.

End Alphabet.

Lemma pv_name_char_no_space (c : ascii) :
  Py.has_char c Grammar.pv_name_chars = true → Ascii.is_space c = false.
Proof.
  intros Hc. destruct (Ascii.is_space c) eqn:Hs; [|done].
  destruct c as [[] [] [] [] [] [] [] []]; try discriminate Hs;
    vm_compute in Hc; discriminate Hc.
Qed.

Lemma all_in_no_space (s : string) :
  Grammar.all_in Grammar.pv_name_chars s = true → Py.no_space s = true.
Proof.
  induction s as [|c s IH]; [done|]. simpl.
  intros [Hc Hs]%andb_true_iff.
  by rewrite (pv_name_char_no_space c Hc), IH.
Qed.

(** A token of [pv_name] has no white space in it and starts neither a
    comment nor the end mark of a save file. *)
Lemma pv_name_shape (name : string) :
  Grammar.pv_name name = true →
  Py.no_space name = true
  ∧ Py.startswith "#" name = false
  ∧ Py.startswith "<END" name = false.
Proof.
  unfold Grammar.pv_name, Grammar.word.
  intros [Hne Hall]%andb_true_iff.
  split; [by apply all_in_no_space|].
  destruct name as [|c name]; [done|].
  simpl in Hall. apply andb_true_iff in Hall as [Hc _].
  unfold Py.startswith. rewrite !str_prefix_cons.
  split.
  - rewrite bool_decide_eq_false_2; [done|]. intros <-.
    vm_compute in Hc. discriminate Hc.
  - rewrite bool_decide_eq_false_2; [done|]. intros <-.
    vm_compute in Hc. discriminate Hc.
Qed.

(** X14.  When the parser gives the groups of the grammar and the
    dictionaries of the store have [pv_name] tokens as values, every name
    that [_parse_request_file] returns is a [pv_name] token again: one
    character or more of the alphabet of line 162, hence without white
    space, and starting neither a comment nor the end mark of a save
    file. *)
Theorem resolved_names_are_pv_names :
  ∀ (parseFile : string → result (list group))
    (items : gmap string string → list (string * string)),
    (∀ f groups,
        parseFile f = Return groups →
        forallb Grammar.req_group groups = true) →
    (∀ d, items d ≡ₚ map_to_list d) →
    ∀ (fuel : nat) (request_file : string) (macro_values : nat)
      (h h' : list (gmap string string)) (names : list string),
      Forall scope_ok h →
      _parse_request_file parseFile items fuel request_file macro_values h
      = (h', Return names) →
      Forall (λ name, Grammar.pv_name name = true
                      ∧ Py.no_space name = true
                      ∧ Py.startswith "#" name = false
                      ∧ Py.startswith "<END" name = false) names.
Proof.
  intros parseFile items Hparsed Hitems fuel request_file macro_values
    h h' names Hh Hrun.
  destruct (parse_alphabet parseFile items Hparsed Hitems fuel _ _ _ _ _
              Hh Hrun) as [_ Hnames].
  eapply Forall_impl; [exact Hnames|].
  intros name Hname. split; [done|]. by apply pv_name_shape.
Qed.

Lemma sample_requests_parsed (f : string) (groups : list group) :
  Sample.requests f = Return groups →
  forallb Grammar.req_group groups = true.
Proof.
  unfold Sample.requests. intros H.
  repeat (destruct (String.eqb f _);
          [injection H as <-; reflexivity|]).
  discriminate H.
Qed.

Lemma resolved_names_are_pv_names_witness :
  Forall (λ name, Grammar.pv_name name = true
                  ∧ Py.no_space name = true
                  ∧ Py.startswith "#" name = false
                  ∧ Py.startswith "<END" name = false)
    ["$(P)top"; "XF:m1"; "XF:m2.VAL"].
Proof.
  apply (resolved_names_are_pv_names Sample.requests map_to_list
           sample_requests_parsed (λ d, reflexivity (map_to_list d))
           3 "top.req" default_macro_values initial_store
           (_parse_request_file Sample.requests map_to_list 3 "top.req"
              default_macro_values initial_store).1).
  - repeat constructor. intros k v Hkv. by rewrite lookup_empty in Hkv.
  - vm_compute. reflexivity.
Defined.
